(** * RouterOS API client (package routeros_api): a shallow embedding

    The Go package talks to a MikroTik router over a byte stream: every
    word is sent behind a variable-width length prefix, a sentence is a
    run of words closed by an empty word, and [RunCommand] collects the
    reply sentences up to the [!done] marker.

    Conventions of the embedding:
    - Go's [int64] is [Z] with the wrap-around written out ([wrap64]);
      a Go [byte] is [Byte.byte]; a Go [string] is a [string] (a sequence
      of 8-bit characters, as in Go);
    - [map[string]string] is [gmap string string]; the unspecified order
      of [range] over a map is explicit: [write_sentence] and
      [RunCommand] take the order of the visit, and their callers take
      it from the map through a function that stands for [range];
    - [net.Conn] is a record holding the segments still to arrive and the
      bytes written so far; the functions thread it explicitly;
    - a run-time panic is the result [Panic]; loops that the source does
      not bound take fuel, and running out of it is [Hang]. *)

From Stdlib Require Import ZArith Lia Ascii String.
From Stdlib.Strings Require Import Byte.
From stdpp Require Import gmap strings list.

Local Open Scope Z_scope.

(** ** Go scalars *)

Module GoInt.

(** Two's complement reduction to 64 bits: the value of an [int64]
    expression whose mathematical result is [z]. *)
Definition wrap64 (z : Z) : Z := (z + 2 ^ 63) mod 2 ^ 64 - 2 ^ 63.

(** [x << k] and [x + y] on [int64]. *)
Definition shl64 (x k : Z) : Z := wrap64 (Z.shiftl x k).
Definition add64 (x y : Z) : Z := wrap64 (x + y).

(** [byte(x)] for an [int64] [x]: the low eight bits, as a number. *)
Definition u8 (x : Z) : Z := x mod 256.

(** The [Byte.byte] with a given numeric value (reduced modulo 256). *)
Definition to_byte (x : Z) : byte :=
  match Byte.of_N (Z.to_N (x mod 256)) with
  | Some b => b
  | None => x00
  end.

(** [int64(b)] for a byte [b]. *)
Definition of_byte (b : byte) : Z := Z.of_N (Byte.to_N b).

(** [[]byte(s)] and [string(data)]. *)
Definition bytes_of_string (s : string) : list byte := list_byte_of_string s.
Definition string_of_bytes (l : list byte) : string := string_of_list_byte l.

(** [len(s)] as an [int64]. *)
Definition len (s : string) : Z := Z.of_nat (String.length s).

End GoInt.
Import GoInt.

(** ** The connection

    [net.Conn] is outside the package; the model keeps what the package
    can observe of it.  [inbound] lists the segments that the peer will
    deliver, in order: one [Read] returns bytes of the first segment only
    (at most as many as the buffer holds) and never waits for the next
    one; when no segment is left the peer has closed the stream and
    [Read] reports an error with zero bytes.  [Write] appends to
    [outbound], or reports an error and sends nothing when the write side
    is broken.  [faults] counts the calls that reported an error. *)

Record Conn : Type := mkConn {
  inbound : list (list byte);
  outbound : list byte;
  wr_broken : bool;
  faults : nat
}.

(** The outcome of [conn.Read(buf)] with [len(buf) = k]: the bytes
    stored at the front of [buf], whether [err != nil], and the
    connection afterwards. *)
Definition conn_Read (c : Conn) (k : nat) : list byte * bool * Conn :=
  match k with
  | O => ([], false, c)
  | _ =>
      match inbound c with
      | [] =>
          ([], true,
           mkConn [] (outbound c) (wr_broken c) (S (faults c)))
      | seg :: more =>
          let got := firstn k seg in
          let left := skipn k seg in
          let inb := match left with [] => more | _ => left :: more end in
          (got, false, mkConn inb (outbound c) (wr_broken c) (faults c))
      end
  end.

(** The outcome of [conn.Write(p)]: whether [err != nil], and the
    connection afterwards. *)
Definition conn_Write (c : Conn) (p : list byte) : bool * Conn :=
  if wr_broken c then
    (true, mkConn (inbound c) (outbound c) true (S (faults c)))
  else
    (false, mkConn (inbound c) (outbound c ++ p) false (faults c)).

(** A buffer from [make([]byte, k)] after a [Read] that stored [got]:
    the bytes not overwritten stay zero. *)
Definition buffer (k : nat) (got : list byte) : list byte :=
  got ++ repeat x00 (k - length got)%nat.

(** Every byte still to arrive, in order. *)
Definition pending (c : Conn) : list byte := concat (inbound c).

(** ** Length codec and word stream *)

(** [write_length]: the prefix bytes [ba], then [conn.Write(ba)] with its
    results dropped. *)
Definition length_bytes (length : Z) : list byte :=
  if length <? 0x80 then
    [to_byte (u8 length)]
  else if length <? 0x4000 then
    let length := Z.lor length 0x8000 in
    [to_byte (Z.land (u8 (Z.shiftr length 8)) 0xFF);
     to_byte (Z.land (u8 length) 0xFF)]
  else if length <? 0x200000 then
    let length := Z.lor length 0xC00000 in
    [to_byte (Z.land (u8 (Z.shiftr length 16)) 0xFF);
     to_byte (Z.land (u8 (Z.shiftr length 8)) 0xFF);
     to_byte (Z.land (u8 length) 0xFF)]
  else if length <? 0x10000000 then
    let length := Z.lor length 0xE0000000 in
    [to_byte (Z.land (u8 (Z.shiftr length 24)) 0xFF);
     to_byte (Z.land (u8 (Z.shiftr length 16)) 0xFF);
     to_byte (Z.land (u8 (Z.shiftr length 8)) 0xFF);
     to_byte (Z.land (u8 length) 0xFF)]
  else
    [to_byte 0xF0;
     to_byte (Z.land (u8 (Z.shiftr length 24)) 0xFF);
     to_byte (Z.land (u8 (Z.shiftr length 16)) 0xFF);
     to_byte (Z.land (u8 (Z.shiftr length 8)) 0xFF);
     to_byte (Z.land (u8 length) 0xFF)].

Definition write_length (conn : Conn) (length : Z) : Conn :=
  let ba := length_bytes length in
  snd (conn_Write conn ba).

(** [write_word]: the length of the word, then its bytes; the results of
    [conn.Write] are dropped. *)
Definition write_word (conn : Conn) (word : string) : Conn :=
  let conn := write_length conn (len word) in
  snd (conn_Write conn (bytes_of_string word)).

(** [read_byte]: a one-byte buffer, one [Read] whose results are dropped,
    and the buffer's only byte. *)
Definition read_byte (conn : Conn) : Z * Conn :=
  let '(got, _, conn) := conn_Read conn 1 in
  let b := buffer 1 got in
  (of_byte (nth 0 b x00), conn).

(** [read_length]: the switch on the high bits of the first byte.  A
    first byte of [0xF8] or more matches no case and is returned as it
    is. *)
Definition read_length (conn : Conn) : Z * Conn :=
  let '(length, conn) := read_byte conn in
  if Z.land length 0x80 =? 0x00 then
    (length, conn)
  else if Z.land length 0xC0 =? 0x80 then
    let length := Z.land length (Z.lnot 0xC0) in
    let length := shl64 length 8 in
    let '(b, conn) := read_byte conn in
    (add64 length b, conn)
  else if Z.land length 0xE0 =? 0xC0 then
    let length := Z.land length (Z.lnot 0xE0) in
    let length := shl64 length 8 in
    let '(b, conn) := read_byte conn in
    let length := add64 length b in
    let length := shl64 length 8 in
    let '(b, conn) := read_byte conn in
    (add64 length b, conn)
  else if Z.land length 0xF0 =? 0xE0 then
    let length := Z.land length (Z.lnot 0xF0) in
    let length := shl64 length 8 in
    let '(b, conn) := read_byte conn in
    let length := add64 length b in
    let length := shl64 length 8 in
    let '(b, conn) := read_byte conn in
    let length := add64 length b in
    let length := shl64 length 8 in
    let '(b, conn) := read_byte conn in
    (add64 length b, conn)
  else if Z.land length 0xF8 =? 0xF0 then
    let '(length, conn) := read_byte conn in
    let length := shl64 length 8 in
    let '(b, conn) := read_byte conn in
    let length := add64 length b in
    let length := shl64 length 8 in
    let '(b, conn) := read_byte conn in
    let length := add64 length b in
    let length := shl64 length 8 in
    let '(b, conn) := read_byte conn in
    (add64 length b, conn)
  else
    (length, conn).

(** [read_word]: a buffer of [length] bytes, one [Read] whose results are
    dropped, and the whole buffer as a string. *)
Definition read_word (conn : Conn) : string * Conn :=
  let '(length, conn) := read_length conn in
  let k := Z.to_nat length in
  let '(got, _, conn) := conn_Read conn k in
  let data := buffer k got in
  (string_of_bytes data, conn).

(** ** Outcomes

    What a call can do besides returning: panic (an index out of range),
    or never return (a loop that the source does not bound ran out of the
    fuel given to its model). *)

Inductive outcome (A : Type) : Type :=
| Ret (a : A)
| Panic
| Hang.
Arguments Ret {A} a.
Arguments Panic {A}.
Arguments Hang {A}.

#[global] Instance outcome_ret : MRet outcome := fun _ a => Ret a.

#[global] Instance outcome_bind : MBind outcome := fun _ _ f m =>
  match m with
  | Ret a => f a
  | Panic => Panic
  | Hang => Hang
  end.

(** ** The regular expressions of package regexp that the client uses

    [regexp.Compile] with leftmost-first (Perl-like) matching: alternatives
    of a repetition are tried longest first and the first overall match
    wins.  Only the operators of the client's pattern are modelled. *)

Module Regexp.

Local Open Scope nat_scope.

Inductive re : Type :=
| Bol                          (* ^  : start of the text *)
| Eol                          (* $  : end of the text *)
| Chr (c : ascii)              (* a literal character *)
| Any                          (* .  : any character but a newline *)
| Star (r : re)                (* r* : greedy repetition *)
| Cat (r1 r2 : re)             (* r1 r2; (?:r) is r *)
| Group (i : nat) (r : re).    (* (r), the i-th capturing group *)

(** The text captured by each group that took part in the match. *)
Definition caps := list (nat * string).

Fixpoint cap_get (i : nat) (cs : caps) : string :=
  match cs with
  | [] => ""
  | (j, s) :: cs' => if Nat.eqb i j then s else cap_get i cs'
  end.

Definition newline : ascii := ascii_of_nat 10.

(** A continuation: what is left to match once a piece has matched
    up to some offset. *)
Definition cont : Type := nat -> string -> caps -> option caps.

(** Greedy repetition of [step]: one more round if it matches and
    consumes something, else (or if what follows then fails) go on with
    [k] from here.  A round consumes at least one character, so the
    rounds are bounded by the length of the text left. *)
Fixpoint star_loop (step : nat -> string -> caps -> cont -> option caps)
    (k : cont) (fuel : nat) (pos : nat) (s : string) (cs : caps) : option caps :=
  match fuel with
  | O => k pos s cs
  | S fuel' =>
      match step pos s cs
              (fun pos' s' cs' =>
                 if Nat.eqb pos' pos then None
                 else star_loop step k fuel' pos' s' cs')
      with
      | Some out => Some out
      | None => k pos s cs
      end
  end.

(** [run r pos s cs k]: match [r] at offset [pos], where [s] is the
    text from that offset on; on success go on with [k]. *)
Fixpoint run (r : re) (pos : nat) (s : string) (cs : caps) (k : cont)
    {struct r} : option caps :=
  match r with
  | Bol => if Nat.eqb pos 0 then k pos s cs else None
  | Eol => match s with EmptyString => k pos s cs | _ => None end
  | Chr c =>
      match s with
      | String c' s' => if Ascii.eqb c c' then k (S pos) s' cs else None
      | EmptyString => None
      end
  | Any =>
      match s with
      | String c' s' => if Ascii.eqb c' newline then None else k (S pos) s' cs
      | EmptyString => None
      end
  | Cat r1 r2 =>
      run r1 pos s cs (fun pos' s' cs' => run r2 pos' s' cs' k)
  | Group i r1 =>
      run r1 pos s cs
        (fun pos' s' cs' => k pos' s' ((i, substring 0 (pos' - pos) s) :: cs'))
  | Star r1 => star_loop (run r1) k (String.length s) pos s cs
  end.

Fixpoint groups (r : re) : nat :=
  match r with
  | Star r1 => groups r1
  | Cat r1 r2 => Nat.max (groups r1) (groups r2)
  | Group i r1 => Nat.max i (groups r1)
  | _ => 0
  end.

(** The leftmost match starting at offset [pos] or later. *)
Fixpoint find_from (r : re) (fuel pos : nat) (s : string) : option (nat * string * caps) :=
  match run r pos s [] (fun pos' _ cs => Some ((0, substring 0 (pos' - pos) s) :: cs)) with
  | Some cs => Some (pos, s, cs)
  | None =>
      match fuel, s with
      | S fuel', String _ s' => find_from r fuel' (S pos) s'
      | _, _ => None
      end
  end.

(** [FindStringSubmatch]: the text of the leftmost match and of each of
    its groups (empty for a group that took no part); the nil slice,
    here the empty list, when there is no match. *)
Definition FindStringSubmatch (r : re) (s : string) : list string :=
  match find_from r (String.length s) 0 s with
  | Some (_, _, cs) => map (fun i => cap_get i cs) (seq 0 (S (groups r)))
  | None => []
  end.

End Regexp.

(** ** Sentences *)

Record Sentence : Type := mkSentence {
  Command : string;
  Attributes : gmap string string
}.

(** [Sentence{}]: the zero value.  A nil map and an empty map read alike
    and are both [∅]. *)
Definition no_data : Sentence := mkSentence "" ∅.

(** [m[k]] on a Go map: the zero value when the key is absent. *)
Definition map_index (m : gmap string string) (k : string) : string :=
  default "" (m !! k).

(** The pattern compiled in [parse_sentence]; with blanks added between
    its tokens it reads  ^ ( = .* ) (?: = ( .* ) ) $  : the start of the
    text, group 1 holding an equals sign and any run of characters, an
    equals sign, group 2 holding any run of characters, the end of the
    text. *)
Definition word_regex : Regexp.re :=
  let eq := Regexp.Chr "="%char in
  let any := Regexp.Star Regexp.Any in
  Regexp.Cat Regexp.Bol
    (Regexp.Cat (Regexp.Group 1 (Regexp.Cat eq any))
       (Regexp.Cat (Regexp.Cat eq (Regexp.Group 2 any)) Regexp.Eol)).

(** The loop of [parse_sentence] over [words[1:]]: [matches[1]] and
    [matches[2]] panic when [matches] is nil. *)
Fixpoint parse_attributes (words : list string) (attributes : gmap string string)
    : outcome (gmap string string) :=
  match words with
  | [] => Ret attributes
  | word :: rest =>
      let matches := Regexp.FindStringSubmatch word_regex word in
      match matches !! 1%nat, matches !! 2%nat with
      | Some name, Some value => parse_attributes rest (<[name := value]> attributes)
      | _, _ => Panic
      end
  end.

Definition parse_sentence (words : list string) : outcome Sentence :=
  match words with
  | [] => Ret no_data
  | command :: rest =>
      attributes ← parse_attributes rest ∅;
      Ret (mkSentence command attributes)
  end.

(** The loop of [read_sentence].  A word that is not empty took at least
    one byte off the stream, so the loop is bounded by the bytes still to
    arrive; [read_sentence] gives it that much fuel. *)
Fixpoint read_words (fuel : nat) (conn : Conn) (words : list string)
    : outcome (Sentence * Conn) :=
  let '(word, conn) := read_word conn in
  if len word =? 0 then
    sentence ← parse_sentence words;
    Ret (sentence, conn)
  else
    match fuel with
    | O => Hang
    | S fuel' => read_words fuel' conn (words ++ [word])
    end.

Definition read_sentence (conn : Conn) : outcome (Sentence * Conn) :=
  read_words (List.length (pending conn)) conn [].

(** [write_sentence]: the command, one word per attribute in the order
    [order] in which [range] visits [sentence.Attributes], and the empty
    word.  The callers below take [order] from the map itself, through
    a function that stands for [range]. *)
Definition write_sentence (conn : Conn) (sentence : Sentence)
    (order : list (string * string)) : Conn :=
  let conn := write_word conn (Command sentence) in
  let conn :=
    fold_left (fun conn '(attribute, value) =>
                 write_word conn (attribute +:+ "=" +:+ value))
      order conn in
  write_word conn "".

(** The orders in which [range] may visit a map. *)
Definition range_order (m : gmap string string) (order : list (string * string)) : Prop :=
  order ≡ₚ map_to_list m.

(** A function that stands for [range]: it visits every entry of the map
    it is given once, in an order of its own. *)
Definition range_visits (range : gmap string string -> list (string * string)) : Prop :=
  forall m, range_order m (range m).

(** ** Command session *)

(** A Go [error]: [None] is nil, [Some msg] is [errors.New(msg)]. *)
Definition error := option string.

(** The [for] loop of [RunCommand]. *)
Fixpoint RunCommand_loop (fuel : nat) (conn : Conn) (reply : list Sentence) (err : error)
    : outcome (list Sentence * error * Conn) :=
  match fuel with
  | O => Hang
  | S fuel' =>
      '(sentence, conn) ← read_sentence conn;
      if len (Command sentence) =? 0 then
        RunCommand_loop fuel' conn reply err
      else
        let err :=
          if String.eqb (Command sentence) "!trap"
          then Some (map_index (Attributes sentence) "=message")
          else err in
        let reply := reply ++ [sentence] in
        if String.eqb (Command sentence) "!done" then
          Ret (reply, err, conn)
        else
          RunCommand_loop fuel' conn reply err
  end.

Definition RunCommand (fuel : nat) (conn : Conn) (command : Sentence)
    (order : list (string * string)) : outcome (list Sentence * error * Conn) :=
  let conn := write_sentence conn command order in
  RunCommand_loop fuel conn [] None.

(** ** Packages crypto/md5 and encoding/hex

    The digest of crypto/md5 keeps four registers, the bytes of an
    unfinished 64-byte block and the number of bytes written; [Sum] pads
    what is buffered and returns the registers in little-endian order
    (RFC 1321). *)

Module MD5.

Definition u32 (x : Z) : Z := x mod 2 ^ 32.

Definition rotl (x c : Z) : Z :=
  u32 (Z.lor (Z.shiftl x c) (Z.shiftr x (32 - c))).

Definition shifts : list Z :=
  [7; 12; 17; 22; 7; 12; 17; 22; 7; 12; 17; 22; 7; 12; 17; 22;
   5; 9; 14; 20; 5; 9; 14; 20; 5; 9; 14; 20; 5; 9; 14; 20;
   4; 11; 16; 23; 4; 11; 16; 23; 4; 11; 16; 23; 4; 11; 16; 23;
   6; 10; 15; 21; 6; 10; 15; 21; 6; 10; 15; 21; 6; 10; 15; 21].

Definition table : list Z :=
  [0xd76aa478; 0xe8c7b756; 0x242070db; 0xc1bdceee;
   0xf57c0faf; 0x4787c62a; 0xa8304613; 0xfd469501;
   0x698098d8; 0x8b44f7af; 0xffff5bb1; 0x895cd7be;
   0x6b901122; 0xfd987193; 0xa679438e; 0x49b40821;
   0xf61e2562; 0xc040b340; 0x265e5a51; 0xe9b6c7aa;
   0xd62f105d; 0x02441453; 0xd8a1e681; 0xe7d3fbc8;
   0x21e1cde6; 0xc33707d6; 0xf4d50d87; 0x455a14ed;
   0xa9e3e905; 0xfcefa3f8; 0x676f02d9; 0x8d2a4c8a;
   0xfffa3942; 0x8771f681; 0x6d9d6122; 0xfde5380c;
   0xa4beea44; 0x4bdecfa9; 0xf6bb4b60; 0xbebfbc70;
   0x289b7ec6; 0xeaa127fa; 0xd4ef3085; 0x04881d05;
   0xd9d4d039; 0xe6db99e5; 0x1fa27cf8; 0xc4ac5665;
   0xf4292244; 0x432aff97; 0xab9423a7; 0xfc93a039;
   0x655b59c3; 0x8f0ccc92; 0xffeff47d; 0x85845dd1;
   0x6fa87e4f; 0xfe2ce6e0; 0xa3014314; 0x4e0811a1;
   0xf7537e82; 0xbd3af235; 0x2ad7d2bb; 0xeb86d391].

Definition regs : Type := Z * Z * Z * Z.

Definition init : regs := (0x67452301, 0xefcdab89, 0x98badcfe, 0x10325476).

(** The [g]-th little-endian 32-bit word of a block. *)
Definition word_at (blk : list byte) (g : nat) : Z :=
  let b (i : nat) := of_byte (nth (4 * g + i)%nat blk x00) in
  b 0%nat + 2 ^ 8 * b 1%nat + 2 ^ 16 * b 2%nat + 2 ^ 24 * b 3%nat.

Definition not32 (x : Z) : Z := Z.lxor x 0xffffffff.

Definition step (blk : list byte) (r : regs) (i : nat) : regs :=
  let '(a, b, c, d) := r in
  let '(f, g) :=
    if (i <? 16)%nat then
      (Z.lor (Z.land b c) (Z.land (not32 b) d), i)
    else if (i <? 32)%nat then
      (Z.lor (Z.land d b) (Z.land (not32 d) c), ((5 * i + 1) mod 16)%nat)
    else if (i <? 48)%nat then
      (Z.lxor (Z.lxor b c) d, ((3 * i + 5) mod 16)%nat)
    else
      (Z.lxor c (Z.lor b (not32 d)), ((7 * i) mod 16)%nat) in
  let f := u32 (f + a + nth i table 0 + word_at blk g) in
  (d, u32 (b + rotl f (nth i shifts 0)), b, c).

(** One 64-byte block. *)
Definition block (s : regs) (blk : list byte) : regs :=
  let '(a0, b0, c0, d0) := s in
  let '(a, b, c, d) := fold_left (step blk) (seq 0 64) s in
  (u32 (a0 + a), u32 (b0 + b), u32 (c0 + c), u32 (d0 + d)).

(** Every whole block at the front of [p], and what is left of [p]. *)
Fixpoint blocks (fuel : nat) (s : regs) (p : list byte) : regs * list byte :=
  match fuel with
  | O => (s, p)
  | S fuel' =>
      if (64 <=? List.length p)%nat
      then blocks fuel' (block s (firstn 64 p)) (skipn 64 p)
      else (s, p)
  end.

Record digest : Type := mkDigest {
  s : regs;          (* the registers *)
  x : list byte;     (* the unfinished block, fewer than 64 bytes *)
  len : Z            (* bytes written, a uint64 *)
}.

Definition New : digest := mkDigest init [] 0.

(** [d.Write(p)], also reached through [io.WriteString]. *)
Definition Write_ (d : digest) (p : list byte) : digest :=
  let q := x d ++ p in
  let '(s', x') := blocks (List.length q) (s d) q in
  mkDigest s' x' ((len d + Z.of_nat (List.length p)) mod 2 ^ 64).

Definition le_bytes (n : nat) (v : Z) : list byte :=
  map (fun i => to_byte (Z.shiftr v (8 * Z.of_nat i))) (seq 0 n).

(** [d.Sum(nil)]: pad with a one bit, zeros up to 56 bytes modulo 64
    and the length in bits, then write out the registers. *)
Definition Sum (d : digest) : list byte :=
  let pad := Z.to_nat ((55 - len d) mod 64) in
  let tmp := to_byte 0x80 :: repeat x00 pad ++ le_bytes 8 ((len d * 8) mod 2 ^ 64) in
  let '(a, b, c, d') := s (Write_ d tmp) in
  le_bytes 4 a ++ le_bytes 4 b ++ le_bytes 4 c ++ le_bytes 4 d'.

(** The digest of a whole message. *)
Definition md5 (msg : list byte) : list byte := Sum (Write_ New msg).

End MD5.

Module Hex.

Definition digit (v : Z) : ascii :=
  match String.get (Z.to_nat v) "0123456789abcdef" with
  | Some c => c
  | None => "0"%char
  end.

(** The verb [%x] applied to a byte slice, and [hex.EncodeToString]:
    two lowercase digits per byte. *)
Fixpoint encode (l : list byte) : string :=
  match l with
  | [] => ""
  | b :: l' =>
      String (digit (of_byte b / 16)) (String (digit (of_byte b mod 16)) (encode l'))
  end.

(** The value of a hexadecimal digit of either case. *)
Definition value (c : ascii) : option Z :=
  let n := Z.of_nat (nat_of_ascii c) in
  if (48 <=? n) && (n <=? 57) then Some (n - 48)
  else if (97 <=? n) && (n <=? 102) then Some (n - 97 + 10)
  else if (65 <=? n) && (n <=? 70) then Some (n - 65 + 10)
  else None.

(** [hex.DecodeString]: the bytes decoded before the first fault, and
    whether [err != nil] (a character that is no digit, or an odd
    length). *)
Fixpoint DecodeString (s : string) : list byte * bool :=
  match s with
  | EmptyString => ([], false)
  | String p EmptyString => ([], true)
  | String p (String q s') =>
      match value p, value q with
      | Some a, Some b =>
          let '(l, e) := DecodeString s' in
          (to_byte (Z.lor (Z.shiftl a 4) b) :: l, e)
      | _, _ => ([], true)
      end
  end.

End Hex.

(** ** Login *)

(** The response of the second login sentence, as [Connect] computes it
    from the password and the decoded seed: three writes to a fresh
    digest, then ["00%x"] of its sum. *)
Definition login_response (password : string) (seed : list byte) : string :=
  let hash := MD5.New in
  let hash := MD5.Write_ hash (bytes_of_string (String Ascii.zero EmptyString)) in
  let hash := MD5.Write_ hash (bytes_of_string password) in
  let hash := MD5.Write_ hash seed in
  "00" +:+ Hex.encode (MD5.Sum hash).

Record Client : Type := mkClient {
  Host : string;
  Port : Z;
  User : string;
  Password : string;
  conn : option Conn
}.

(** [reply[0]]. *)
Definition first_sentence (reply : list Sentence) : outcome Sentence :=
  match reply with
  | [] => Panic
  | s :: _ => Ret s
  end.

(** [Connect].  [dial] stands for [net.Dial] at the client's host and
    port: a connection or the error it reports.  [range] gives the order
    in which [write_sentence] visits the attributes of each of the two
    sentences: none for the first, whose map is nil, and the two that
    [Connect] builds for the second. *)
Definition Connect (fuel : nat) (dial : string -> Z -> Conn + string)
    (range : gmap string string -> list (string * string)) (client : Client)
    : outcome (error * Client) :=
  let with_conn (c : option Conn) :=
    mkClient (Host client) (Port client) (User client) (Password client) c in
  match dial (Host client) (Port client) with
  | inr e => Ret (Some e, with_conn None)
  | inl c =>
      let s := mkSentence "/login" ∅ in
      '(reply, err, c) ← RunCommand fuel c s (range (Attributes s));
      match err with
      | Some e => Ret (Some e, with_conn (Some c))
      | None =>
          r0 ← first_sentence reply;
          let '(seed, _) := Hex.DecodeString (map_index (Attributes r0) "=ret") in
          let attributes :=
            <["=response" := login_response (Password client) seed]>
              (<["=name" := User client]> ∅) in
          let s := mkSentence "/login" attributes in
          '(reply, err, c) ← RunCommand fuel c s (range (Attributes s));
          match err with
          | Some e => Ret (Some e, with_conn (Some c))
          | None =>
              r0 ← first_sentence reply;
              if String.eqb (map_index (Attributes r0) "=ret") "error"
              then Ret (Some "Access denied", with_conn None)
              else Ret (None, with_conn (Some c))
          end
      end
  end.

(** ** Vocabulary of the statements *)

(** Every segment still to arrive carries at least one byte. *)
Definition segments_nonempty (c : Conn) : bool :=
  forallb (fun seg => match seg with [] => false | _ => true end) (inbound c).

(** The bytes that went out between two states of a connection. *)
Definition sent (before after : Conn) : list byte :=
  skipn (List.length (outbound before)) (outbound after).

(** The width of the prefix that the protocol mandates for a length, band
    by band. *)
Definition band_width (n : Z) : nat :=
  if n <=? 0x7F then 1
  else if n <=? 0x3FFF then 2
  else if n <=? 0x1FFFFF then 3
  else if n <=? 0xFFFFFFF then 4
  else 5.

(** What the masks of [read_length] must do on a first byte: each case
    of the switch is taken exactly on its range of first bytes, and
    clearing the marker bits subtracts the marker. *)
Definition switch_ok (z : Z) : bool :=
  if z <? 0x80 then Z.land z 0x80 =? 0x00
  else
    negb (Z.land z 0x80 =? 0x00) &&
    if z <? 0xC0 then
      (Z.land z 0xC0 =? 0x80) && (Z.land z (Z.lnot 0xC0) =? z - 0x80)
    else
      negb (Z.land z 0xC0 =? 0x80) &&
      if z <? 0xE0 then
        (Z.land z 0xE0 =? 0xC0) && (Z.land z (Z.lnot 0xE0) =? z - 0xC0)
      else
        negb (Z.land z 0xE0 =? 0xC0) &&
        if z <? 0xF0 then
          (Z.land z 0xF0 =? 0xE0) && (Z.land z (Z.lnot 0xF0) =? z - 0xE0)
        else
          negb (Z.land z 0xF0 =? 0xE0) &&
          if z <? 0xF8 then Z.land z 0xF8 =? 0xF0
          else negb (Z.land z 0xF8 =? 0xF0).

(** [read_length] with the switch written as comparisons of the first
    byte with the thresholds, the marker taken off by subtraction. *)
Definition read_length_banded (conn : Conn) : Z * Conn :=
  let '(z, conn) := read_byte conn in
  if z <? 0x80 then (z, conn)
  else if z <? 0xC0 then
    let '(b1, conn) := read_byte conn in
    (add64 (shl64 (z - 0x80) 8) b1, conn)
  else if z <? 0xE0 then
    let '(b1, conn) := read_byte conn in
    let '(b2, conn) := read_byte conn in
    (add64 (shl64 (add64 (shl64 (z - 0xC0) 8) b1) 8) b2, conn)
  else if z <? 0xF0 then
    let '(b1, conn) := read_byte conn in
    let '(b2, conn) := read_byte conn in
    let '(b3, conn) := read_byte conn in
    (add64 (shl64 (add64 (shl64 (add64 (shl64 (z - 0xE0) 8) b1) 8) b2) 8) b3, conn)
  else if z <? 0xF8 then
    let '(b0, conn) := read_byte conn in
    let '(b1, conn) := read_byte conn in
    let '(b2, conn) := read_byte conn in
    let '(b3, conn) := read_byte conn in
    (add64 (shl64 (add64 (shl64 (add64 (shl64 b0 8) b1) 8) b2) 8) b3, conn)
  else (z, conn).

(** The words that [write_sentence] hands to [write_word] before the
    closing empty word. *)
Definition sentence_words (sentence : Sentence) (order : list (string * string))
    : list string :=
  Command sentence ::
  map (fun '(attribute, value) => attribute +:+ "=" +:+ value) order.

(** The next [k] sentences of a stream, read one after the other. *)
Fixpoint read_sentences (k : nat) (c : Conn) : outcome (list Sentence * Conn) :=
  match k with
  | O => Ret ([], c)
  | S k' =>
      '(s, c1) ← read_sentence c;
      '(ss, c2) ← read_sentences k' c1;
      Ret (s :: ss, c2)
  end.

Definition is_trap (s : Sentence) : bool := String.eqb (Command s) "!trap".
Definition is_done (s : Sentence) : bool := String.eqb (Command s) "!done".
Definition has_command (s : Sentence) : bool := negb (String.eqb (Command s) "").

(** The error that the loop of [RunCommand] holds after the sentences
    [ss], starting from [err]: the message of the last trap, if any. *)
Definition trap_error_from (err : error) (ss : list Sentence) : error :=
  fold_left
    (fun err s => if is_trap s then Some (map_index (Attributes s) "=message") else err)
    ss err.

Definition trap_error (reply : list Sentence) : error := trap_error_from None reply.

(** Whether a text holds a newline, which [.] does not match. *)
Fixpoint has_newline (s : string) : bool :=
  match s with
  | EmptyString => false
  | String c s' => Ascii.eqb c Regexp.newline || has_newline s'
  end.

(** The text before and after the last equals sign. *)
Fixpoint split_last (s : string) : option (string * string) :=
  match s with
  | EmptyString => None
  | String c s' =>
      match split_last s' with
      | Some (a, b) => Some (String c a, b)
      | None => if Ascii.eqb "="%char c then Some (EmptyString, s') else None
      end
  end.

(** What the pattern of [parse_sentence] matches: a word that begins
    with an equals sign, holds a second one and no newline; the name is
    all that precedes the last equals sign. *)
Definition split_word (word : string) : option (string * string) :=
  match word with
  | String c s1 =>
      if Ascii.eqb "="%char c && negb (has_newline s1) then
        match split_last s1 with
        | Some (a, b) => Some (String c a, b)
        | None => None
        end
      else None
  | EmptyString => None
  end.

(** The tail of the pattern of [parse_sentence]: an equals sign, group 2
    and the end of the text. *)
Definition tail_re : Regexp.re :=
  Regexp.Cat
    (Regexp.Cat (Regexp.Chr "="%char) (Regexp.Group 2 (Regexp.Star Regexp.Any)))
    Regexp.Eol.

(** The number of bytes still to arrive. *)
Definition backlog (c : Conn) : nat := List.length (pending c).

(** A connection on which nothing was written, with the given segments
    to arrive. *)
Definition fresh_conn (segments : list (list byte)) : Conn := mkConn segments [] false 0.

(** ** Streams used as examples *)

Module Wire.

Definition word (n : byte) (w : string) : list byte := n :: bytes_of_string w.

(** [!done] *)
Definition done : list byte := word x05 "!done" ++ [x00].

(** [!trap =message=no such item] then [!done] *)
Definition trap_then_done : list byte :=
  word x05 "!trap" ++ word x15 "=message=no such item" ++ [x00] ++ done.

(** Two traps with different messages, then [!done] *)
Definition two_traps : list byte :=
  word x05 "!trap" ++ word x0e "=message=first" ++ [x00] ++
  word x05 "!trap" ++ word x0f "=message=second" ++ [x00] ++ done.

(** [!re =running=false =connect-to=10.0.0.5 =.id=*3] then [!done] *)
Definition print_reply : list byte :=
  word x03 "!re" ++ word x0e "=running=false" ++ word x14 "=connect-to=10.0.0.5" ++
  word x07 "=.id=*3" ++ [x00] ++ done.

(** [!re =comment=a=b] then [!done] *)
Definition comment_reply : list byte :=
  word x03 "!re" ++ word x0c "=comment=a=b" ++ [x00] ++ done.

(** [!re =x] then [!done]: an attribute word without a second equals sign *)
Definition bare_attribute : list byte :=
  word x03 "!re" ++ word x02 "=x" ++ [x00] ++ done.

(** [!done =ret=0102] then [!done]: the replies to the two logins *)
Definition seed_then_done : list byte :=
  word x05 "!done" ++ word x09 "=ret=0102" ++ [x00] ++ done.

(** [!done] cut off before its closing empty word *)
Definition done_cut : list byte := word x05 "!done".

End Wire.

(** Sentences of the examples. *)
Definition print_query : Sentence := mkSentence "/interface/ovpn-client/print" ∅.
Definition done_sentence : Sentence := mkSentence "!done" ∅.
Definition re_print : Sentence :=
  mkSentence "!re"
    (<["=running" := "false"]>
       (<["=connect-to" := "10.0.0.5"]> (<["=.id" := "*3"]> ∅))).
Definition trap_sentence (message : string) : Sentence :=
  mkSentence "!trap" (<["=message" := message]> ∅).

(** The bytes of the print query as [write_sentence] frames them. *)
Definition print_query_bytes : list byte :=
  Wire.word x1c "/interface/ovpn-client/print" ++ [x00].

(** The sentence of the round-trip property. *)
Definition set_sentence : Sentence :=
  mkSentence "/interface/ovpn-client/set"
    (<["=.id" := "*1"]> (<["=connect-to" := "203.0.113.9"]> ∅)).

(** ** Vocabulary of the further properties *)

(** What is left to arrive once the front of the first segment has been
    read: the rest of that segment if any, then the others. *)
Definition rest_of (seg : list byte) (more : list (list byte)) : list (list byte) :=
  match seg with
  | [] => more
  | _ => seg :: more
  end.

(** A connection with other segments to arrive. *)
Definition with_inbound (c : Conn) (inb : list (list byte)) : Conn :=
  mkConn inb (outbound c) (wr_broken c) (faults c).

(** A word as it travels: its length prefix, then its bytes. *)
Definition frame (word : string) : list byte :=
  length_bytes (len word) ++ bytes_of_string word.

(** Whether a text holds an equals sign. *)
Fixpoint has_equals (s : string) : bool :=
  match s with
  | EmptyString => false
  | String c s' => Ascii.eqb "="%char c || has_equals s'
  end.

(** An attribute that the reader takes back as it was written: the name
    begins with the equals sigil, the value holds no equals sign, and
    neither holds a newline. *)
Definition attribute_ok (name value : string) : bool :=
  match name with
  | String c _ => Ascii.eqb "="%char c
  | EmptyString => false
  end
  && negb (has_newline name) && negb (has_newline value)
  && negb (has_equals value).

(** The bytes of a run of words on the wire. *)
Definition wire (words : list string) : list byte := concat (map frame words).

(** Two states of a connection with the same write side: the bytes
    sent, the broken flag. *)
Definition same_write_side (c c' : Conn) : Prop :=
  outbound c' = outbound c /\ wr_broken c' = wr_broken c.

(** [conn.Close()] on the connection: what had not been read is gone,
    and every later [Read] and [Write] reports an error. *)
Definition conn_Close (c : Conn) : Conn :=
  mkConn [] (outbound c) true (faults c).

(** [Close]: a call of [client.conn.Close()].  When the field is nil the
    method call on the nil interface panics. *)
Definition Close (client : Client) : outcome Client :=
  match conn client with
  | None => Panic
  | Some c =>
      Ret (mkClient (Host client) (Port client) (User client) (Password client)
             (Some (conn_Close c)))
  end.

(** The second login sentence of [Connect], for the sentence [r0] that
    answered the first. *)
Definition login_sentence (client : Client) (r0 : Sentence) : Sentence :=
  mkSentence "/login"
    (<["=response" :=
         login_response (Password client)
           (Hex.DecodeString (map_index (Attributes r0) "=ret")).1]>
       (<["=name" := User client]> ∅)).

(** ** The updater (package main)

    [net.IP] is a byte slice, here a list of bytes, the nil slice being
    the empty list.  [To4] and [Equal] follow package net; resolving a
    name, parsing and printing an address stay outside and are variables
    of the section, as are the dial and the command-line flags. *)

Module IP.

Definition is_nil (ip : list byte) : bool :=
  match ip with [] => true | _ => false end.

Definition v4InV6Prefix : list byte :=
  [x00; x00; x00; x00; x00; x00; x00; x00; x00; x00; xff; xff].

(** [bytealg.Equal] *)
Fixpoint bytes_eqb (a b : list byte) : bool :=
  match a, b with
  | [], [] => true
  | x :: a', y :: b' => Byte.eqb x y && bytes_eqb a' b'
  | _, _ => false
  end.

(** [ip.To4()]: the 4-byte form of an IPv4 address, nil for any other
    slice. *)
Definition To4 (ip : list byte) : list byte :=
  if Nat.eqb (List.length ip) 4 then ip
  else if Nat.eqb (List.length ip) 16 && bytes_eqb (firstn 12 ip) v4InV6Prefix
  then skipn 12 ip
  else [].

(** [ip.Equal(x)]: an IPv4 address and its 16-byte form are equal. *)
Definition Equal (ip x : list byte) : bool :=
  if Nat.eqb (List.length ip) (List.length x) then bytes_eqb ip x
  else if Nat.eqb (List.length ip) 4 && Nat.eqb (List.length x) 16 then
    bytes_eqb (firstn 12 x) v4InV6Prefix && bytes_eqb ip (skipn 12 x)
  else if Nat.eqb (List.length ip) 16 && Nat.eqb (List.length x) 4 then
    bytes_eqb (firstn 12 ip) v4InV6Prefix && bytes_eqb (skipn 12 ip) x
  else false.

End IP.

(** How a run of the program ends: [main] returns, glog.Exitln or
    glog.Fatalln ends the process with what it was given to print, a
    panic, or a loop that does not end. *)
Inductive ending : Type :=
| Returned
| Exitln (args : list string)
| Fatalln (args : list string)
| Crashed
| Spinning.

(** A resolver and a parser for the examples: one name with two IPv6
    addresses and one IPv4 address, in that order. *)
Definition example_lookup (url : string) : list string + string :=
  if String.eqb url "vpn.example.net"
  then inl ["2001:db8::1"; "2001:db8::2"; "203.0.113.9"]
  else if String.eqb url "vpn4.example.net" then inl ["203.0.113.9"]
  else inr "no such host".

Definition example_parse (text : string) : list byte :=
  if String.eqb text "2001:db8::1" then
    [x20; x01; x0d; xb8; x00; x00; x00; x00; x00; x00; x00; x00; x00; x00; x00; x01]
  else if String.eqb text "2001:db8::2" then
    [x20; x01; x0d; xb8; x00; x00; x00; x00; x00; x00; x00; x00; x00; x00; x00; x02]
  else if String.eqb text "203.0.113.9" then
    IP.v4InV6Prefix ++ [xcb; x00; x71; x09]
  else if String.eqb text "10.0.0.5" then
    IP.v4InV6Prefix ++ [x0a; x00; x00; x05]
  else [].

Definition example_print (ip : list byte) : string :=
  if IP.Equal ip (example_parse "203.0.113.9") then "203.0.113.9"
  else if IP.Equal ip (example_parse "10.0.0.5") then "10.0.0.5"
  else "<nil>".

(** The router's side of a whole run: the replies to the two logins, to
    the print query (not running, connect-to 10.0.0.5) and to the set
    command. *)
Definition example_session : list byte :=
  Wire.seed_then_done ++ Wire.print_reply ++ Wire.done.

Section Updater.

Variable LookupHost : string -> list string + string.
Variable ParseIP : string -> list byte.
Variable IP_String : list byte -> string.
Variable dial : string -> Z -> Conn + string.

(** The loop of [get_ip] over the addresses found, with the variables
    [ipv4] and [ipv6] of the function. *)
Fixpoint get_ip_loop (prefer6 : bool) (ips : list string)
    (ipv4 ipv6 : list byte) : list byte * list byte :=
  match ips with
  | [] => (ipv4, ipv6)
  | text :: rest =>
      let ip := ParseIP text in
      if IP.is_nil (IP.To4 ip) && IP.is_nil ipv6 then
        let ipv6 := ip in
        if prefer6 then (ipv4, ipv6) else get_ip_loop prefer6 rest ipv4 ipv6
      else
        let ipv4 := ip in
        if negb prefer6 then (ipv4, ipv6) else get_ip_loop prefer6 rest ipv4 ipv6
  end.

(** [get_ip]: the address, or the error with which glog.Fatalln ends the
    process. *)
Definition get_ip (url : string) (prefer6 : bool) : list byte + string :=
  match LookupHost url with
  | inr err => inr err
  | inl ips =>
      let '(ipv4, ipv6) := get_ip_loop prefer6 ips [] [] in
      inl (if prefer6 then ipv6 else ipv4)
  end.

(** The sentence of [set_openvpn_ip]. *)
Definition set_query (iface_id : string) (ip : list byte) : Sentence :=
  mkSentence "/interface/ovpn-client/set"
    (<["=connect-to" := IP_String ip]> (<["=.id" := iface_id]> ∅)).

(** [main], from the values of the flags on.  It gives how the process
    ends and the bytes that have gone out by then on the connection that
    [Connect] left in the client, if it left one.  A command that panics
    or does not return has written its sentence before: [RunCommand]
    writes nothing after [write_sentence].  [range] gives the order in
    which [write_sentence] visits the attributes of each sentence. *)
Definition main (fuel : nat) (range : gmap string string -> list (string * string))
    (host : string) (port : Z) (user pass vpn_host : string)
    : ending * option (list byte) :=
  let client := mkClient host port user pass None in
  match Connect fuel dial range client with
  | Panic => (Crashed, None)
  | Hang => (Spinning, None)
  | Ret (Some err, client) => (Fatalln ["Error:"; err], outbound <$> conn client)
  | Ret (None, client) =>
      match conn client with
      | None => (Crashed, None)
      | Some c =>
          (* get_opvenvpn_config *)
          let query := print_query in
          let order := range (Attributes query) in
          match RunCommand fuel c query order with
          | Panic => (Crashed, Some (outbound (write_sentence c query order)))
          | Hang => (Spinning, Some (outbound (write_sentence c query order)))
          | Ret (_, Some err, c) => (Fatalln ["Error:"; err], Some (outbound c))
          | Ret ([], None, c) => (Crashed, Some (outbound c))
          | Ret (reply :: _, None, c) =>
              if String.eqb (map_index (Attributes reply) "=running") "true" then
                (Exitln ["VPN running to"; map_index (Attributes reply) "=connect-to"],
                 Some (outbound c))
              else
                let config_ip := ParseIP (map_index (Attributes reply) "=connect-to") in
                let iface_id := map_index (Attributes reply) "=.id" in
                match get_ip vpn_host false with
                | inr err => (Fatalln ["Error:"; err], Some (outbound c))
                | inl lookup_ip =>
                    if IP.Equal config_ip lookup_ip then
                      (Exitln ["IP is correct, can not fix"], Some (outbound c))
                    else
                      (* set_openvpn_ip *)
                      let query := set_query iface_id lookup_ip in
                      let order := range (Attributes query) in
                      match RunCommand fuel c query order with
                      | Panic => (Crashed, Some (outbound (write_sentence c query order)))
                      | Hang => (Spinning, Some (outbound (write_sentence c query order)))
                      | Ret (_, Some err, c) => (Fatalln ["Error:"; err], Some (outbound c))
                      | Ret (_, None, c) =>
                          (* the deferred client.Close() *)
                          (Returned, Some (outbound (conn_Close c)))
                      end
                end
          end
      end
  end.

End Updater.

(** * Theorems *)

(** ** Bytes and 64-bit arithmetic *)

Lemma of_byte_range (b : byte) : 0 <= of_byte b < 256.
Proof.
  unfold of_byte. pose proof (Byte.to_N_bounded b). lia.
Qed.

Lemma of_to_byte (z : Z) : of_byte (to_byte z) = z mod 256.
Proof.
  unfold of_byte, to_byte.
  assert (Hr : 0 <= z mod 256 < 256) by (apply Z.mod_pos_bound; lia).
  destruct (Byte.of_N (Z.to_N (z mod 256))) as [b|] eqn:E.
  - apply Byte.to_of_N in E. rewrite E. lia.
  - apply Byte.of_N_None_iff in E. lia.
Qed.

Lemma to_of_byte (b : byte) : to_byte (of_byte b) = b.
Proof.
  unfold to_byte, of_byte.
  pose proof (Byte.to_N_bounded b).
  rewrite Z.mod_small by lia.
  rewrite N2Z.id, Byte.of_to_N. reflexivity.
Qed.

Lemma wrap64_small (z : Z) : - 2 ^ 63 <= z < 2 ^ 63 -> wrap64 z = z.
Proof. intros H. unfold wrap64. rewrite Z.mod_small; lia. Qed.

Lemma shl64_small (x : Z) : 0 <= x < 2 ^ 32 -> shl64 x 8 = x * 256.
Proof.
  intros H. unfold shl64. rewrite Z.shiftl_mul_pow2 by lia.
  apply wrap64_small. change (2 ^ 8) with 256. lia.
Qed.

Lemma add64_small (x y : Z) : 0 <= x < 2 ^ 48 -> 0 <= y < 256 -> add64 x y = x + y.
Proof. intros Hx Hy. unfold add64. apply wrap64_small. lia. Qed.

(** A property of bytes that holds of each of the 256 values holds of
    every number in range. *)
Lemma byte_cases (P : Z -> bool) :
  forallb P (map Z.of_nat (seq 0 256)) = true ->
  forall z, 0 <= z < 256 -> P z = true.
Proof.
  intros H z Hz. rewrite forallb_forall in H. apply H.
  apply in_map_iff. exists (Z.to_nat z). split; [lia|].
  apply in_seq. lia.
Qed.

Lemma land_disjoint (n q k : Z) :
  0 <= k -> 0 <= n < 2 ^ k -> Z.land n (q * 2 ^ k) = 0.
Proof.
  intros Hk Hn. apply Z.bits_inj'. intros i Hi.
  rewrite Z.land_spec, Z.bits_0.
  destruct (Z.lt_ge_cases i k) as [Hlt|Hge].
  - rewrite Z.mul_pow2_bits_low by lia. apply andb_false_r.
  - destruct (Z.eq_dec n 0) as [->|Hn0]; [rewrite Z.bits_0; reflexivity|].
    rewrite (Z.bits_above_log2 n i); [reflexivity|lia|].
    apply Z.lt_le_trans with k; [|lia]. apply Z.log2_lt_pow2; lia.
Qed.

Lemma lor_disjoint (n q k : Z) :
  0 <= k -> 0 <= n < 2 ^ k -> Z.lor n (q * 2 ^ k) = n + q * 2 ^ k.
Proof.
  intros Hk Hn. pose proof (Z.add_lor_land n (q * 2 ^ k)) as H.
  rewrite land_disjoint in H by assumption. lia.
Qed.

Lemma land_255 (z : Z) : Z.land z 0xFF = z mod 256.
Proof. change 0xFF with (Z.ones 8). rewrite Z.land_ones by lia. reflexivity. Qed.

Lemma read_byte_pending (c : Conn) (b : byte) (rest : list byte) :
  segments_nonempty c = true -> pending c = b :: rest ->
  exists c', read_byte c = (of_byte b, c') /\ pending c' = rest /\
             segments_nonempty c' = true /\ outbound c' = outbound c /\
             faults c' = faults c.
Proof.
  unfold segments_nonempty, pending, read_byte, conn_Read.
  destruct c as [inb out wb fl]; simpl.
  intros Hne Hp. destruct inb as [|seg more]; [discriminate|].
  simpl in Hne. destruct seg as [|b' seg']; [discriminate|]. simpl in Hp, Hne.
  injection Hp as -> <-.
  destruct seg' as [|b2 seg'']; simpl.
  - eexists. repeat split; assumption.
  - eexists. repeat split. assumption.
Qed.

Lemma switch_ok_byte (z : Z) : 0 <= z < 256 -> switch_ok z = true.
Proof. apply byte_cases. vm_compute. reflexivity. Qed.

Lemma read_byte_range (c : Conn) : 0 <= fst (read_byte c) < 256.
Proof.
  unfold read_byte. destruct (conn_Read c 1) as [[got e] c']. simpl.
  apply of_byte_range.
Qed.

Lemma read_length_banded_eq (c : Conn) : read_length c = read_length_banded c.
Proof.
  unfold read_length, read_length_banded.
  pose proof (read_byte_range c) as Hr.
  destruct (read_byte c) as [z c1]. simpl in Hr.
  pose proof (switch_ok_byte z Hr) as Hs. unfold switch_ok in Hs.
  repeat match type of Hs with
  | context [?a <? ?b] => destruct (a <? b) eqn:?
  | (_ && _)%bool = true => apply andb_prop in Hs; destruct Hs as [? Hs]
  end;
  repeat match goal with
  | H : negb _ = true |- _ => apply negb_true_iff in H
  | H : (_ =? _) = true |- _ => first [ rewrite H | apply Z.eqb_eq in H; rewrite H ]
  | H : (_ =? _) = false |- _ => rewrite H
  end; try reflexivity.
Qed.

Ltac bytes_arith :=
  unfold u8; rewrite ?land_255, ?Z.shiftr_div_pow2 by lia;
  change (2 ^ 8) with 256; change (2 ^ 16) with 65536;
  change (2 ^ 24) with 16777216.

Lemma length_bytes_1 (n : Z) :
  0 <= n < 0x80 -> length_bytes n = [to_byte n].
Proof.
  intros H. unfold length_bytes.
  destruct (Z.ltb_spec n 0x80); [|lia].
  f_equal. unfold to_byte, u8. rewrite Z.mod_mod by lia. reflexivity.
Qed.

Lemma to_byte_eq (x y : Z) : x mod 256 = y mod 256 -> to_byte x = to_byte y.
Proof. unfold to_byte. intros ->. reflexivity. Qed.

Ltac each_byte :=
  repeat match goal with
  | |- to_byte _ = to_byte _ => apply to_byte_eq
  | |- _ :: _ = _ :: _ => f_equal
  end;
  bytes_arith; Z.div_mod_to_equations; lia.

Lemma length_bytes_2 (n : Z) :
  0x80 <= n < 0x4000 ->
  length_bytes n = [to_byte (0x80 + n / 256); to_byte (n mod 256)].
Proof.
  intros H. unfold length_bytes.
  destruct (Z.ltb_spec n 0x80); [lia|].
  destruct (Z.ltb_spec n 0x4000); [|lia].
  change 0x8000 with (1 * 2 ^ 15). rewrite lor_disjoint by lia.
  each_byte.
Qed.

Lemma length_bytes_3 (n : Z) :
  0x4000 <= n < 0x200000 ->
  length_bytes n =
    [to_byte (0xC0 + n / 65536); to_byte (n / 256 mod 256); to_byte (n mod 256)].
Proof.
  intros H. unfold length_bytes.
  destruct (Z.ltb_spec n 0x80); [lia|].
  destruct (Z.ltb_spec n 0x4000); [lia|].
  destruct (Z.ltb_spec n 0x200000); [|lia].
  change 0xC00000 with (3 * 2 ^ 22). rewrite lor_disjoint by lia.
  each_byte.
Qed.

Lemma length_bytes_4 (n : Z) :
  0x200000 <= n < 0x10000000 ->
  length_bytes n =
    [to_byte (0xE0 + n / 16777216); to_byte (n / 65536 mod 256);
     to_byte (n / 256 mod 256); to_byte (n mod 256)].
Proof.
  intros H. unfold length_bytes.
  destruct (Z.ltb_spec n 0x80); [lia|].
  destruct (Z.ltb_spec n 0x4000); [lia|].
  destruct (Z.ltb_spec n 0x200000); [lia|].
  destruct (Z.ltb_spec n 0x10000000); [|lia].
  change 0xE0000000 with (7 * 2 ^ 29). rewrite lor_disjoint by lia.
  each_byte.
Qed.

Lemma length_bytes_5 (n : Z) :
  0x10000000 <= n ->
  length_bytes n =
    [to_byte 0xF0; to_byte (n / 16777216 mod 256); to_byte (n / 65536 mod 256);
     to_byte (n / 256 mod 256); to_byte (n mod 256)].
Proof.
  intros H. unfold length_bytes.
  destruct (Z.ltb_spec n 0x80); [lia|].
  destruct (Z.ltb_spec n 0x4000); [lia|].
  destruct (Z.ltb_spec n 0x200000); [lia|].
  destruct (Z.ltb_spec n 0x10000000); [lia|].
  each_byte.
Qed.

Ltac step_read c' Hwf Hp :=
  let Hrb := fresh "Hrb" in
  let Hwf' := fresh "Hwf" in
  let Hp' := fresh "Hp" in
  let Ho := fresh "Ho" in
  let Hf := fresh "Hf" in
  destruct (read_byte_pending _ _ _ Hwf Hp) as (c' & Hrb & Hp' & Hwf' & Ho & Hf);
  rewrite Hrb; clear Hrb; rewrite of_to_byte.

Ltac pick_band :=
  repeat match goal with
  | |- context [?a <? ?b] =>
      destruct (Z.ltb_spec a b); [try (exfalso; Z.div_mod_to_equations; lia) | try (exfalso; Z.div_mod_to_equations; lia)]
  end.

Ltac be_arith :=
  repeat match goal with
  | |- context [shl64 ?x 8] =>
      rewrite (shl64_small x) by (Z.div_mod_to_equations; lia)
  | |- context [add64 ?x ?y] =>
      rewrite (add64_small x y) by (Z.div_mod_to_equations; lia)
  end;
  Z.div_mod_to_equations; lia.

Lemma read_length_of_bytes (n : Z) (r : Conn) (rest : list byte) :
  0 <= n <= 0xFFFFFFFF ->
  segments_nonempty r = true -> pending r = length_bytes n ++ rest ->
  exists r', read_length r = (n, r') /\ pending r' = rest /\
             segments_nonempty r' = true /\ outbound r' = outbound r /\
             faults r' = faults r.
Proof.
  intros Hn Hwf Hp. rewrite read_length_banded_eq. unfold read_length_banded.
  destruct (Z.lt_ge_cases n 0x80) as [H1|H1];
  [|destruct (Z.lt_ge_cases n 0x4000) as [H2|H2];
    [|destruct (Z.lt_ge_cases n 0x200000) as [H3|H3];
      [|destruct (Z.lt_ge_cases n 0x10000000) as [H4|H4]]]].
  - rewrite length_bytes_1 in Hp by lia. simpl in Hp.
    step_read r1 Hwf Hp. pick_band.
    exists r1. rewrite Z.mod_small by lia. repeat split; congruence.
  - rewrite length_bytes_2 in Hp by lia. simpl in Hp.
    step_read r1 Hwf Hp. pick_band.
    step_read r2 Hwf0 Hp0.
    exists r2. split; [|repeat split; congruence].
    f_equal. be_arith.
  - rewrite length_bytes_3 in Hp by lia. simpl in Hp.
    step_read r1 Hwf Hp. pick_band.
    step_read r2 Hwf0 Hp0. step_read r3 Hwf1 Hp1.
    exists r3. split; [|repeat split; congruence].
    f_equal. be_arith.
  - rewrite length_bytes_4 in Hp by lia. simpl in Hp.
    step_read r1 Hwf Hp. pick_band.
    step_read r2 Hwf0 Hp0. step_read r3 Hwf1 Hp1. step_read r4 Hwf2 Hp2.
    exists r4. split; [|repeat split; congruence].
    f_equal. be_arith.
  - rewrite length_bytes_5 in Hp by lia. simpl in Hp.
    step_read r1 Hwf Hp. change (240 mod 256) with 240. simpl.
    step_read r2 Hwf0 Hp0. step_read r3 Hwf1 Hp1. step_read r4 Hwf2 Hp2.
    step_read r5 Hwf3 Hp3.
    exists r5. split; [|repeat split; congruence].
    f_equal. be_arith.
Qed.

Lemma sent_conn_Write (w : Conn) (p : list byte) :
  wr_broken w = false -> sent w (snd (conn_Write w p)) = p.
Proof.
  intros H. unfold sent, conn_Write. rewrite H. simpl.
  rewrite skipn_app, skipn_all, Nat.sub_diag. reflexivity.
Qed.

(** C1. For every length n from 0 to 0xFFFFFFFF, [write_length] sends as
    many bytes as the band of n mandates (1, 2, 3, 4 or 5), the 5-byte
    form being the marker 0xF0 followed by the four big-endian bytes of
    n, and [read_length] on a stream that starts with those bytes returns
    n and leaves the rest of the stream. *)
Theorem length_codec_roundtrip (n : Z) (w r : Conn) (rest : list byte) :
  0 <= n <= 0xFFFFFFFF ->
  wr_broken w = false ->
  segments_nonempty r = true ->
  pending r = sent w (write_length w n) ++ rest ->
  List.length (sent w (write_length w n)) = band_width n /\
  (0x10000000 <= n ->
   exists b1 b2 b3 b4,
     sent w (write_length w n) = [xf0; b1; b2; b3; b4] /\
     n = of_byte b1 * 2 ^ 24 + of_byte b2 * 2 ^ 16 + of_byte b3 * 2 ^ 8 + of_byte b4) /\
  exists r', read_length r = (n, r') /\ pending r' = rest.
Proof.
  intros Hn Hw Hwf Hp. unfold write_length in *.
  rewrite sent_conn_Write in * by assumption.
  split; [|split].
  - unfold band_width, length_bytes.
    repeat match goal with
    | |- context [?a <? ?b] => destruct (Z.ltb_spec a b)
    | |- context [?a <=? ?b] => destruct (Z.leb_spec a b)
    end; try reflexivity; lia.
  - intros H5. rewrite length_bytes_5 by assumption.
    do 4 eexists. split; [reflexivity|].
    rewrite !of_to_byte. Z.div_mod_to_equations. lia.
  - destruct (read_length_of_bytes n r rest Hn Hwf Hp) as (r' & Hr & Hp' & _).
    exists r'. split; assumption.
Qed.

Lemma length_codec_roundtrip_witness :
  0 <= 0x10000000 <= 0xFFFFFFFF /\
  List.length (sent (fresh_conn []) (write_length (fresh_conn []) 0x10000000))
    = band_width 0x10000000 /\
  (0x10000000 <= 0x10000000 ->
   exists b1 b2 b3 b4,
     sent (fresh_conn []) (write_length (fresh_conn []) 0x10000000)
       = [xf0; b1; b2; b3; b4] /\
     0x10000000
       = of_byte b1 * 2 ^ 24 + of_byte b2 * 2 ^ 16 + of_byte b3 * 2 ^ 8 + of_byte b4) /\
  exists r',
    read_length (fresh_conn [[xf0; x10]; [x00; x00; x00; x2f]]) = (0x10000000, r') /\
    pending r' = [x2f].
Proof.
  split; [lia|].
  apply (length_codec_roundtrip 0x10000000 (fresh_conn [])
           (fresh_conn [[xf0; x10]; [x00; x00; x00; x2f]]) [x2f]);
    [lia | reflexivity | reflexivity | reflexivity].
Defined.

(** ** The loop of RunCommand *)

Lemma len_eqb_0 (s : string) : (len s =? 0) = String.eqb s "".
Proof. destruct s; reflexivity. Qed.

Lemma is_done_not_trap (s : Sentence) : is_done s = true -> is_trap s = false.
Proof.
  unfold is_done, is_trap. intros H. apply String.eqb_eq in H. rewrite H.
  reflexivity.
Qed.

Lemma trap_error_from_app (err : error) (l1 l2 : list Sentence) :
  trap_error_from err (l1 ++ l2) = trap_error_from (trap_error_from err l1) l2.
Proof. unfold trap_error_from. apply fold_left_app. Qed.

(** Whatever the loop returns extends the reply it started from by
    sentences that carry a command, the last of them [!done] and none
    before it; the error is the one the traps among them leave. *)
Lemma RunCommand_loop_shape (fuel : nat) :
  forall c reply err reply' err' c',
    RunCommand_loop fuel c reply err = Ret (reply', err', c') ->
    exists more d,
      reply' = reply ++ more ++ [d] /\ is_done d = true /\
      forallb (fun s => has_command s && negb (is_done s)) more = true /\
      err' = trap_error_from err (more ++ [d]).
Proof.
  induction fuel as [|fuel IH]; intros c reply err reply' err' c' H;
    [discriminate|].
  simpl in H. destruct (read_sentence c) as [[s c1]| |]; simpl in H;
    try discriminate.
  rewrite len_eqb_0 in H.
  destruct (String.eqb (Command s) "") eqn:Hcmd.
  - apply IH in H. exact H.
  - destruct (String.eqb (Command s) "!done") eqn:Hdone.
    + injection H as <- <- <-. exists [], s. simpl. repeat split. exact Hdone.
    + apply IH in H. destruct H as (more & d & -> & Hd & Hmore & ->).
      exists (s :: more), d. rewrite <- app_assoc. simpl.
      repeat split; try assumption.
      unfold has_command, is_done. rewrite Hcmd, Hdone. simpl. exact Hmore.
Qed.

(** The loop on a stream whose next [k] sentences are known and hold no
    [!done]: they are consumed, and those that carry a command join the
    reply. *)
Lemma RunCommand_loop_reads (k : nat) :
  forall c ss c' reply err fuel,
    read_sentences k c = Ret (ss, c') ->
    forallb (fun s => negb (is_done s)) ss = true ->
    RunCommand_loop (k + fuel) c reply err =
    RunCommand_loop fuel c' (reply ++ List.filter has_command ss)
      (trap_error_from err ss).
Proof.
  induction k as [|k IH]; intros c ss c' reply err fuel Hr Hnd.
  - injection Hr as <- <-. simpl. rewrite app_nil_r. reflexivity.
  - simpl in Hr. simpl. destruct (read_sentence c) as [[s c1]| |]; simpl in Hr |- *;
      try discriminate.
    destruct (read_sentences k c1) as [[ss' c2]| |] eqn:Hk; simpl in Hr;
      try discriminate.
    injection Hr as <- <-. simpl in Hnd. apply andb_prop in Hnd as [Hs Hnd].
    rewrite len_eqb_0. unfold has_command, is_done in *. simpl.
    destruct (String.eqb (Command s) "") eqn:Hcmd; simpl.
    + rewrite (IH _ _ _ reply err fuel Hk Hnd).
      unfold is_trap. apply String.eqb_eq in Hcmd. rewrite Hcmd. reflexivity.
    + apply negb_true_iff in Hs. rewrite Hs.
      rewrite (IH _ _ _ _ _ fuel Hk Hnd). rewrite <- app_assoc. reflexivity.
Qed.

Lemma RunCommand_loop_done (fuel : nat) (c c' : Conn) (d : Sentence)
    (reply : list Sentence) (err : error) :
  read_sentence c = Ret (d, c') -> is_done d = true ->
  RunCommand_loop (S fuel) c reply err = Ret (reply ++ [d], err, c').
Proof.
  intros Hr Hd. simpl. rewrite Hr. simpl. rewrite len_eqb_0.
  pose proof (is_done_not_trap d Hd) as Ht. unfold is_done, is_trap in *.
  rewrite Hd, Ht. apply String.eqb_eq in Hd. rewrite Hd. reflexivity.
Qed.

(** C2. A Reply that [RunCommand] returns, with or without an error, is
    not empty and its last sentence has the command [!done]. *)
Theorem RunCommand_reply_ends_with_done (fuel : nat) (c : Conn)
    (command : Sentence) (order : list (string * string))
    (reply : list Sentence) (err : error) (c' : Conn) :
  RunCommand fuel c command order = Ret (reply, err, c') ->
  reply <> [] /\ Command <$> last reply = Some "!done".
Proof.
  unfold RunCommand. intros H.
  apply RunCommand_loop_shape in H as (more & d & -> & Hd & _ & _).
  simpl. split.
  - destruct more; discriminate.
  - rewrite last_snoc. simpl. f_equal. apply String.eqb_eq. exact Hd.
Qed.

Lemma RunCommand_reply_ends_with_done_witness :
  RunCommand 2 (fresh_conn [Wire.print_reply]) print_query []
    = Ret ([re_print; done_sentence], None, mkConn [] print_query_bytes false 0) /\
  [re_print; done_sentence] <> [] /\
  Command <$> last [re_print; done_sentence] = Some "!done".
Proof.
  assert (H : RunCommand 2 (fresh_conn [Wire.print_reply]) print_query []
    = Ret ([re_print; done_sentence], None, mkConn [] print_query_bytes false 0))
    by (vm_compute; reflexivity).
  split; [exact H|].
  exact (RunCommand_reply_ends_with_done _ _ _ _ _ _ _ H).
Defined.

(** C9. The Reply that [RunCommand] returns holds no no-data sentence:
    each of its sentences has a command that is not empty; and a
    zero-length word arriving alone is read as the no-data sentence. *)
Theorem no_data_never_in_reply (fuel : nat) (c : Conn) (command : Sentence)
    (order : list (string * string)) (reply : list Sentence) (err : error)
    (c' r : Conn) (rest : list byte) :
  RunCommand fuel c command order = Ret (reply, err, c') ->
  segments_nonempty r = true ->
  pending r = x00 :: rest ->
  Forall (fun s => Command s <> "" /\ s <> no_data) reply /\
  exists r', read_sentence r = Ret (no_data, r') /\ pending r' = rest.
Proof.
  intros H Hwf Hp. split.
  - unfold RunCommand in H.
    apply RunCommand_loop_shape in H as (more & d & -> & Hd & Hmore & _).
    simpl. apply Forall_app. split.
    + rewrite forallb_forall in Hmore. apply Forall_forall. intros s Hs.
      apply list_elem_of_In, Hmore in Hs. apply andb_prop in Hs as [Hs _].
      unfold has_command in Hs. apply negb_true_iff, String.eqb_neq in Hs.
      split; [exact Hs|]. intros ->. apply Hs. reflexivity.
    + constructor; [|constructor].
      unfold is_done in Hd. apply String.eqb_eq in Hd.
      split; [rewrite Hd; discriminate|]. intros ->. discriminate.
  - destruct (read_byte_pending r x00 rest Hwf Hp) as (r' & Hrb & Hp' & _).
    exists r'. split; [|exact Hp'].
    unfold read_sentence. destruct (List.length (pending r));
      simpl; unfold read_word; rewrite read_length_banded_eq;
      unfold read_length_banded; rewrite Hrb; reflexivity.
Qed.

Lemma no_data_never_in_reply_witness :
  RunCommand 2 (fresh_conn [Wire.print_reply]) print_query []
    = Ret ([re_print; done_sentence], None, mkConn [] print_query_bytes false 0) /\
  segments_nonempty (fresh_conn [[x00]; Wire.done]) = true /\
  pending (fresh_conn [[x00]; Wire.done]) = x00 :: Wire.done /\
  Forall (fun s => Command s <> "" /\ s <> no_data) [re_print; done_sentence] /\
  exists r', read_sentence (fresh_conn [[x00]; Wire.done]) = Ret (no_data, r') /\
             pending r' = Wire.done.
Proof.
  assert (H : RunCommand 2 (fresh_conn [Wire.print_reply]) print_query []
    = Ret ([re_print; done_sentence], None, mkConn [] print_query_bytes false 0))
    by (vm_compute; reflexivity).
  split; [exact H|]. split; [reflexivity|]. split; [reflexivity|].
  exact (no_data_never_in_reply _ _ _ _ _ _ _ (fresh_conn [[x00]; Wire.done])
           Wire.done H eq_refl eq_refl).
Defined.

(** ** Streams of sentences *)

Lemma read_sentences_S (k : nat) (c : Conn) :
  read_sentences (S k) c =
  match read_sentence c with
  | Ret (s, c1) =>
      match read_sentences k c1 with
      | Ret (ss, c2) => Ret (s :: ss, c2)
      | Panic => Panic
      | Hang => Hang
      end
  | Panic => Panic
  | Hang => Hang
  end.
Proof.
  simpl. destruct (read_sentence c) as [[s c1]| |]; try reflexivity.
Qed.

Lemma read_sentences_length (k : nat) :
  forall c ss c', read_sentences k c = Ret (ss, c') -> List.length ss = k.
Proof.
  induction k as [|k IH]; intros c ss c' H.
  - injection H as <- <-. reflexivity.
  - simpl in H. destruct (read_sentence c) as [[s c1]| |]; simpl in H;
      try discriminate.
    destruct (read_sentences k c1) as [[ss' c2]| |] eqn:Hk; simpl in H;
      try discriminate.
    injection H as <- <-. simpl. f_equal. eapply IH, Hk.
Qed.

Lemma read_sentences_snoc (k : nat) :
  forall c ss d c',
    read_sentences (S k) c = Ret (ss ++ [d], c') ->
    exists c1, read_sentences k c = Ret (ss, c1) /\ read_sentence c1 = Ret (d, c').
Proof.
  induction k as [|k IH]; intros c ss d c' H.
  - simpl in H. destruct (read_sentence c) as [[s c1]| |] eqn:Hs; simpl in H;
      try discriminate.
    injection H as H <-. destruct ss as [|s0 ss0]; simpl in H.
    + injection H as ->. exists c. split; [reflexivity | exact Hs].
    + injection H as _ H. destruct ss0; discriminate.
  - rewrite read_sentences_S in H.
    destruct (read_sentence c) as [[s c1]| |] eqn:Hs; try discriminate.
    destruct (read_sentences (S k) c1) as [[ss' c2]| |] eqn:Hk;
      try discriminate.
    injection H as H <-.
    pose proof (read_sentences_length _ _ _ _ Hk) as Hlen.
    destruct ss as [|s0 ss0].
    + destruct ss'; discriminate.
    + simpl in H. injection H as -> ->.
      apply IH in Hk as (c3 & Hk & Hd). exists c3. split; [|exact Hd].
      rewrite read_sentences_S, Hs, Hk. reflexivity.
Qed.

Lemma trap_error_from_no_trap (err : error) (l : list Sentence) :
  forallb (fun s => negb (is_trap s)) l = true -> trap_error_from err l = err.
Proof.
  induction l as [|s l IH]; intros H; [reflexivity|].
  simpl in H. apply andb_prop in H as [Hs Hl]. apply negb_true_iff in Hs.
  unfold trap_error_from in *. simpl. rewrite Hs. apply IH, Hl.
Qed.

(** C5, as the code has it. When the sentences read after the command
    hold a [!trap] sentence before the first [!done], with no further
    [!trap] between the two, [RunCommand] returns every sentence that
    carries a command, the trap among them, and an error whose text is
    the [=message] attribute of that trap, the last one of the reply. *)
Theorem last_trap_reported (n fuel : nat) (c : Conn) (command : Sentence)
    (order : list (string * string)) (pre post : list Sentence)
    (trap done : Sentence) (c' : Conn) :
  read_sentences n (write_sentence c command order)
    = Ret (pre ++ trap :: post ++ [done], c') ->
  is_trap trap = true ->
  is_done done = true ->
  forallb (fun s => negb (is_done s)) (pre ++ post) = true ->
  forallb (fun s => negb (is_trap s)) post = true ->
  (n <= fuel)%nat ->
  exists reply,
    RunCommand fuel c command order
      = Ret (reply, Some (map_index (Attributes trap) "=message"), c') /\
    trap ∈ reply /\
    reply = List.filter has_command (pre ++ trap :: post ++ [done]).
Proof.
  intros Hr Ht Hd Hnd Hnt Hfuel.
  pose proof (read_sentences_length _ _ _ _ Hr) as Hlen.
  destruct n as [|k]; [destruct pre; discriminate|].
  replace (pre ++ trap :: post ++ [done]) with ((pre ++ trap :: post) ++ [done]) in *
    by (rewrite <- app_assoc; reflexivity).
  apply read_sentences_snoc in Hr as (c1 & Hk & Hlast).
  assert (Hnd' : forallb (fun s => negb (is_done s)) (pre ++ trap :: post) = true).
  { rewrite forallb_app in Hnd. apply andb_prop in Hnd as [H1 H2].
    rewrite forallb_app. simpl. rewrite H1, H2.
    unfold is_done, is_trap in *. apply String.eqb_eq in Ht. rewrite Ht.
    reflexivity. }
  assert (Hhas : has_command trap = true).
  { unfold has_command, is_trap in *. apply String.eqb_eq in Ht. rewrite Ht.
    reflexivity. }
  assert (Hdone : has_command done = true).
  { unfold has_command, is_done in *. apply String.eqb_eq in Hd. rewrite Hd.
    reflexivity. }
  eexists. split; [|split].
  - unfold RunCommand. replace fuel with (k + S (fuel - S k))%nat by lia.
    rewrite (RunCommand_loop_reads k _ _ _ _ _ _ Hk Hnd').
    rewrite (RunCommand_loop_done _ _ _ _ _ _ Hlast Hd).
    do 2 f_equal. f_equal.
    replace (pre ++ trap :: post) with ((pre ++ [trap]) ++ post)
      by (rewrite <- app_assoc; reflexivity).
    rewrite trap_error_from_app, (trap_error_from_no_trap _ post Hnt).
    rewrite trap_error_from_app. unfold trap_error_from at 1. simpl.
    rewrite Ht. reflexivity.
  - simpl. rewrite List.filter_app. simpl. rewrite Hhas.
    apply list_elem_of_In, in_or_app. left. apply in_or_app. right. left.
    reflexivity.
  - simpl. rewrite !List.filter_app. simpl. rewrite Hdone. reflexivity.
Qed.

Lemma last_trap_reported_witness :
  read_sentences 2 (write_sentence (fresh_conn [Wire.trap_then_done]) print_query [])
    = Ret ([] ++ trap_sentence "no such item" :: [] ++ [done_sentence],
           mkConn [] print_query_bytes false 0) /\
  exists reply,
    RunCommand 2 (fresh_conn [Wire.trap_then_done]) print_query []
      = Ret (reply,
             Some (map_index (Attributes (trap_sentence "no such item")) "=message"),
             mkConn [] print_query_bytes false 0) /\
    trap_sentence "no such item" ∈ reply /\
    reply = List.filter has_command
              ([] ++ trap_sentence "no such item" :: [] ++ [done_sentence]).
Proof.
  assert (H : read_sentences 2
                (write_sentence (fresh_conn [Wire.trap_then_done]) print_query [])
    = Ret ([] ++ trap_sentence "no such item" :: [] ++ [done_sentence],
           mkConn [] print_query_bytes false 0)) by (vm_compute; reflexivity).
  split; [exact H|].
  apply (last_trap_reported 2 2 _ _ _ [] [] _ _ _ H);
    [reflexivity | reflexivity | reflexivity | reflexivity | lia].
Defined.

(** The exchange [!trap =message=no such item]
    then [!done] gives a Reply of two sentences and the error
    "no such item". *)
Example trap_then_done_reply :
  RunCommand 2 (fresh_conn [Wire.trap_then_done]) print_query []
  = Ret ([trap_sentence "no such item"; done_sentence], Some "no such item",
         mkConn [] print_query_bytes false 0).
Proof. vm_compute. reflexivity. Qed.

(** C5 as stated fails when a second trap follows: the stream holds the
    trap "first" before [!done], and the error returned is not its
    message. *)
Lemma first_trap_message_overwritten :
  read_sentences 3 (write_sentence (fresh_conn [Wire.two_traps]) print_query [])
    = Ret ([trap_sentence "first"; trap_sentence "second"; done_sentence],
           mkConn [] print_query_bytes false 0) /\
  RunCommand 3 (fresh_conn [Wire.two_traps]) print_query []
    = Ret ([trap_sentence "first"; trap_sentence "second"; done_sentence],
           Some "second", mkConn [] print_query_bytes false 0) /\
  Some "second" <> Some (map_index (Attributes (trap_sentence "first")) "=message").
Proof.
  split; [vm_compute; reflexivity|]. split; [vm_compute; reflexivity|].
  vm_compute. discriminate.
Qed.

Lemma RunCommand_trap_error (fuel : nat) (c : Conn) (command : Sentence)
    (order : list (string * string)) (reply : list Sentence) (err : error)
    (c' : Conn) :
  RunCommand fuel c command order = Ret (reply, err, c') -> err = trap_error reply.
Proof.
  intros H. unfold RunCommand in H.
  apply RunCommand_loop_shape in H as (more & d & -> & _ & _ & ->).
  reflexivity.
Qed.

Lemma RunCommand_not_nil (fuel : nat) (c : Conn) (command : Sentence)
    (order : list (string * string)) (reply : list Sentence) (err : error)
    (c' : Conn) :
  RunCommand fuel c command order = Ret (reply, err, c') ->
  exists r0 rest, reply = r0 :: rest.
Proof.
  intros H. unfold RunCommand in H.
  apply RunCommand_loop_shape in H as (more & d & -> & _ & _ & _).
  destruct more as [|r0 more]; eexists; eexists; reflexivity.
Qed.

(** C8, as the code has it. No failure of a [Read] or of a [Write] is
    ever returned. The error that [RunCommand] returns is fixed by the
    Reply alone: nil when it holds no [!trap] sentence, else the message
    of the last one. The error that [Connect] returns is fixed by the
    result of the dial and by the Replies to its two login sentences: it
    is the error of the dial; after a dial that succeeds, the error that
    the [!trap] sentences of the first Reply leave, else the one that
    those of the second leave, else "Access denied" when the first
    sentence of the second Reply carries ret=error, and nil otherwise.
    Of the transport failures, then, only the one of the dial is
    returned. *)
Theorem only_dial_failure_returned (fuel : nat)
    (dial : string -> Z -> Conn + string)
    (range : gmap string string -> list (string * string))
    (client client' : Client) (cerr : error)
    (c : Conn) (command : Sentence) (order : list (string * string))
    (reply : list Sentence) (err : error) (c' : Conn) :
  RunCommand fuel c command order = Ret (reply, err, c') ->
  Connect fuel dial range client = Ret (cerr, client') ->
  err = trap_error reply /\
  match dial (Host client) (Port client) with
  | inr e => cerr = Some e
  | inl c0 =>
      exists r0 reply1 c1,
        RunCommand fuel c0 (mkSentence "/login" ∅) (range ∅)
          = Ret (r0 :: reply1, trap_error (r0 :: reply1), c1) /\
        match trap_error (r0 :: reply1) with
        | Some e => cerr = Some e
        | None =>
            exists r1 reply2 c2,
              RunCommand fuel c1 (login_sentence client r0)
                (range (Attributes (login_sentence client r0)))
                = Ret (r1 :: reply2, trap_error (r1 :: reply2), c2) /\
              cerr = match trap_error (r1 :: reply2) with
                     | Some e => Some e
                     | None =>
                         if String.eqb (map_index (Attributes r1) "=ret") "error"
                         then Some "Access denied"
                         else None
                     end
        end
  end.
Proof.
  intros Hrun Hconn. split; [exact (RunCommand_trap_error _ _ _ _ _ _ _ Hrun)|].
  unfold Connect in Hconn.
  destruct (dial (Host client) (Port client)) as [c0|e];
    [|injection Hconn as <- _; reflexivity].
  cbn [Attributes] in Hconn.
  destruct (RunCommand fuel c0 (mkSentence "/login" ∅) (range ∅))
    as [[[reply1 err1] c1]| |] eqn:H1; simpl in Hconn; try discriminate.
  pose proof (RunCommand_trap_error _ _ _ _ _ _ _ H1) as ->.
  destruct (RunCommand_not_nil _ _ _ _ _ _ _ H1) as (r0 & rest1 & ->).
  exists r0, rest1, c1. split; [reflexivity|].
  destruct (trap_error (r0 :: rest1)) as [e1|];
    [injection Hconn as <- _; reflexivity|].
  simpl in Hconn. unfold login_sentence. cbn [Attributes].
  destruct (Hex.DecodeString (map_index (Attributes r0) "=ret")) as [seed bad].
  cbn [fst].
  destruct (RunCommand fuel c1 _ _) as [[[reply2 err2] c2]| |] eqn:H2;
    simpl in Hconn; try discriminate.
  pose proof (RunCommand_trap_error _ _ _ _ _ _ _ H2) as ->.
  destruct (RunCommand_not_nil _ _ _ _ _ _ _ H2) as (r1 & rest2 & ->).
  exists r1, rest2, c2. split; [reflexivity|].
  destruct (trap_error (r1 :: rest2)) as [e2|];
    [injection Hconn as <- _; reflexivity|].
  simpl in Hconn.
  destruct (String.eqb (map_index (Attributes r1) "=ret") "error");
    injection Hconn as <- _; reflexivity.
Qed.

Lemma only_dial_failure_returned_witness :
  exists client' c1 c2,
    RunCommand 2 (mkConn [Wire.done_cut] [] true 0) print_query []
      = Ret ([done_sentence], None, mkConn [] [] true 5) /\
    Connect 2 (fun _ _ => inl (mkConn [Wire.seed_then_done] [] true 0)) map_to_list
      (mkClient "192.168.88.1" 8728 "admin" "secret" None)
      = Ret (None, client') /\
    faults c1 = 4%nat /\ faults c2 = 12%nat /\ conn client' = Some c2 /\
    None = trap_error [done_sentence] /\
    exists r0 reply1,
      RunCommand 2 (mkConn [Wire.seed_then_done] [] true 0)
        (mkSentence "/login" ∅) (map_to_list ∅)
        = Ret (r0 :: reply1, trap_error (r0 :: reply1), c1) /\
      trap_error (r0 :: reply1) = None /\
      exists r1 reply2,
        RunCommand 2 c1
          (login_sentence (mkClient "192.168.88.1" 8728 "admin" "secret" None) r0)
          (map_to_list
             (Attributes
                (login_sentence (mkClient "192.168.88.1" 8728 "admin" "secret" None) r0)))
          = Ret (r1 :: reply2, trap_error (r1 :: reply2), c2) /\
        trap_error (r1 :: reply2) = None /\
        String.eqb (map_index (Attributes r1) "=ret") "error" = false.
Proof.
  assert (H : RunCommand 2 (mkConn [Wire.done_cut] [] true 0) print_query []
    = Ret ([done_sentence], None, mkConn [] [] true 5))
    by (vm_compute; reflexivity).
  pose proof (only_dial_failure_returned 2
                (fun _ _ => inl (mkConn [Wire.seed_then_done] [] true 0)) map_to_list
                (mkClient "192.168.88.1" 8728 "admin" "secret" None) _ _
                _ _ _ _ _ _ H eq_refl) as [Herr Hc].
  cbv beta in Hc.
  destruct Hc as (r0 & reply1 & c1 & H1 & Hc).
  assert (Hr1 : Ret (r0 :: reply1, trap_error (r0 :: reply1), c1)
                = Ret ([mkSentence "!done" (<["=ret" := "0102"]> ∅)], None,
                       mkConn [Wire.done] [] true 4))
    by (rewrite <- H1; vm_compute; reflexivity).
  injection Hr1 as -> -> E1 ->.
  rewrite E1 in Hc. destruct Hc as (r1 & reply2 & c2 & H2 & Hc).
  assert (Hr2 : Ret (r1 :: reply2, trap_error (r1 :: reply2), c2)
                = Ret ([done_sentence], None, mkConn [] [] true 12))
    by (rewrite <- H2; vm_compute; reflexivity).
  injection Hr2 as -> -> E2 ->.
  eexists. exists (mkConn [Wire.done] [] true 4), (mkConn [] [] true 12).
  split; [exact H|]. split; [vm_compute; reflexivity|].
  split; [reflexivity|]. split; [reflexivity|]. split; [reflexivity|].
  split; [exact Herr|].
  eexists. eexists. split; [exact H1|]. split; [exact E1|].
  eexists. eexists. split; [exact H2|]. split; [exact E2|]. reflexivity.
Defined.

(** C8 as stated fails. On a connection whose every [Write] fails,
    [RunCommand] still returns a nil error (four failed writes); and when
    the peer closes the stream before the closing empty word of [!done],
    the failed [Read] is taken for that empty word and the error is nil
    again. *)
Lemma read_write_failures_dropped :
  RunCommand 1 (mkConn [Wire.done] [] true 0) print_query []
    = Ret ([done_sentence], None, mkConn [] [] true 4) /\
  RunCommand 1 (fresh_conn [Wire.done_cut]) print_query []
    = Ret ([done_sentence], None, mkConn [] print_query_bytes false 1).
Proof. split; vm_compute; reflexivity. Qed.

(** ** The pattern of parse_sentence *)

Module RegexpFacts.
Import Regexp.
Local Open Scope nat_scope.

Lemma run_Cat (r1 r2 : re) (pos : nat) (s : string) (cs : caps) (k : cont) :
  run (Cat r1 r2) pos s cs k
  = run r1 pos s cs (fun pos' s' cs' => run r2 pos' s' cs' k).
Proof. reflexivity. Qed.

Lemma run_Group (i : nat) (r1 : re) (pos : nat) (s : string) (cs : caps) (k : cont) :
  run (Group i r1) pos s cs k
  = run r1 pos s cs
      (fun pos' s' cs' => k pos' s' ((i, substring 0 (pos' - pos) s) :: cs')).
Proof. reflexivity. Qed.

Lemma run_Star (r1 : re) (pos : nat) (s : string) (cs : caps) (k : cont) :
  run (Star r1) pos s cs k = star_loop (run r1) k (String.length s) pos s cs.
Proof. reflexivity. Qed.

Lemma run_Bol (pos : nat) (s : string) (cs : caps) (k : cont) :
  run Bol pos s cs k = if Nat.eqb pos 0 then k pos s cs else None.
Proof. reflexivity. Qed.

Lemma run_Chr (c : ascii) (pos : nat) (s : string) (cs : caps) (k : cont) :
  run (Chr c) pos s cs k
  = match s with
    | String c' s' => if Ascii.eqb c c' then k (S pos) s' cs else None
    | EmptyString => None
    end.
Proof. reflexivity. Qed.

Lemma run_any_cons (pos : nat) (c : ascii) (s : string) (cs : caps) (k : cont) :
  run Any pos (String c s) cs k
  = if Ascii.eqb c newline then None else k (S pos) s cs.
Proof. reflexivity. Qed.

(** Greedy [.*] followed by the end of the text: all of a text without
    newline, and no match otherwise. *)
Lemma star_any_to_end (k : cont) (s : string) :
  forall fuel pos cs,
    String.length s <= fuel ->
    star_loop (run Any)
      (fun pos' s' cs' => match s' with EmptyString => k pos' s' cs' | _ => None end)
      fuel pos s cs
    = if has_newline s then None
      else k (pos + String.length s) EmptyString cs.
Proof.
  induction s as [|c s IH]; intros fuel pos cs Hfuel.
  - simpl. rewrite Nat.add_0_r. destruct fuel; reflexivity.
  - destruct fuel as [|fuel]; [simpl in Hfuel; lia|].
    simpl in Hfuel. cbn [star_loop has_newline String.length].
    rewrite run_any_cons.
    destruct (Ascii.eqb c newline) eqn:Hc; cbn [orb]; [reflexivity|].
    replace (Nat.eqb (S pos) pos) with false
      by (symmetry; apply Nat.eqb_neq; lia).
    rewrite IH by lia.
    destruct (has_newline s); [reflexivity|].
    replace (pos + S (String.length s)) with (S pos + String.length s) by lia.
    destruct (k (S pos + String.length s) "" cs); reflexivity.
Qed.

Lemma append_cons (a : ascii) (x y : string) :
  String a x +:+ y = String a (x +:+ y).
Proof. reflexivity. Qed.

Lemma append_nil (y : string) : EmptyString +:+ y = y.
Proof. reflexivity. Qed.

Lemma substring_prefix (pre s : string) :
  substring 0 (String.length pre) (pre +:+ s) = pre.
Proof.
  induction pre as [|c pre IH].
  - rewrite append_nil. destruct s; reflexivity.
  - rewrite append_cons. simpl. rewrite IH. reflexivity.
Qed.

Lemma substring_all (s : string) : substring 0 (String.length s) s = s.
Proof. induction s as [|c s IH]; simpl; [reflexivity|]. rewrite IH. reflexivity. Qed.

Lemma run_tail (k : cont) (pos : nat) (s : string) (cs : caps) :
  run tail_re pos s cs k =
  match s with
  | String c s2 =>
      if Ascii.eqb "="%char c && negb (has_newline s2)
      then k (S pos + String.length s2) EmptyString ((2, s2) :: cs)
      else None
  | EmptyString => None
  end.
Proof.
  destruct s as [|c s2]; [reflexivity|].
  cbn [tail_re run]. destruct (Ascii.eqb "="%char c); [|reflexivity].
  cbn [andb].
  rewrite (star_any_to_end
             (fun pos' s' cs' =>
                k pos' s' ((2, substring 0 (pos' - S pos) s2) :: cs')))
    by lia.
  destruct (has_newline s2); [reflexivity|]. cbn [negb].
  replace (S pos + String.length s2 - S pos) with (String.length s2) by lia.
  rewrite substring_all. reflexivity.
Qed.

Lemma append_snoc (pre : string) (c : ascii) (s : string) :
  (pre +:+ String c EmptyString) +:+ s = pre +:+ String c s.
Proof.
  induction pre as [|a pre IH]; [reflexivity|].
  rewrite !append_cons, IH. reflexivity.
Qed.

Lemma length_append (a b : string) :
  String.length (a +:+ b) = String.length a + String.length b.
Proof.
  induction a as [|c a IH]; [reflexivity|].
  rewrite append_cons. simpl. rewrite IH. reflexivity.
Qed.

Lemma length_snoc (pre : string) (c : ascii) :
  String.length (pre +:+ String c EmptyString) = S (String.length pre).
Proof. rewrite length_append. simpl. lia. Qed.

(** Greedy [.*] inside group 1, followed by the tail: the split is at
    the last equals sign. *)
Lemma star_any_then_tail (w : string) (s1 : string) :
  forall fuel pre,
    w = pre +:+ s1 ->
    String.length s1 <= fuel ->
    star_loop (run Any)
      (fun pos' s' cs' =>
         run tail_re pos' s' ((1, substring 0 (pos' - 0) w) :: cs')
           (fun pos'' _ cs'' => Some ((0, substring 0 (pos'' - 0) w) :: cs'')))
      fuel (String.length pre) s1 []
    = if has_newline s1 then None
      else match split_last s1 with
           | Some (a, b) => Some [(0, w); (2, b); (1, pre +:+ a)]
           | None => None
           end.
Proof.
  induction s1 as [|c s1 IH]; intros fuel pre Hw Hfuel.
  - destruct fuel; reflexivity.
  - destruct fuel as [|fuel]; [simpl in Hfuel; lia|]. simpl in Hfuel.
    cbn [star_loop has_newline split_last]. rewrite run_any_cons.
    destruct (Ascii.eqb c newline) eqn:Hc; cbn [orb].
    + rewrite run_tail.
      destruct (Ascii.eqb "="%char c) eqn:He; [|reflexivity].
      apply Ascii.eqb_eq in He. subst c. discriminate.
    + replace (Nat.eqb (S (String.length pre)) (String.length pre)) with false
        by (symmetry; apply Nat.eqb_neq; lia).
      assert (Hw' : w = (pre +:+ String c EmptyString) +:+ s1)
        by (rewrite append_snoc; exact Hw).
      rewrite <- (length_snoc pre c), (IH fuel _ Hw') by lia.
      destruct (has_newline s1) eqn:Hnl.
      * rewrite run_tail, Hnl. destruct (Ascii.eqb "="%char c); reflexivity.
      * destruct (split_last s1) as [[a b]|].
        -- rewrite append_snoc. reflexivity.
        -- rewrite run_tail, Hnl. destruct (Ascii.eqb "="%char c); [|reflexivity].
           cbn [andb negb]. rewrite !Nat.sub_0_r.
           replace (S (String.length pre) + String.length s1)
             with (String.length w)
             by (rewrite Hw, length_append; simpl; lia).
           rewrite substring_all.
           replace (substring 0 (String.length pre) w) with pre
             by (rewrite Hw, substring_prefix; reflexivity).
           assert (Hnil : pre +:+ EmptyString = pre).
           { clear. induction pre as [|a pre IH]; [reflexivity|].
             rewrite append_cons, IH. reflexivity. }
           rewrite Hnil. reflexivity.
Qed.

Lemma word_regex_later (s : string) (k : cont) (pos : nat) :
  pos <> 0 -> run word_regex pos s [] k = None.
Proof.
  intros H. unfold word_regex. rewrite run_Cat, run_Bol.
  destruct pos; [congruence | reflexivity].
Qed.

Lemma find_from_later (fuel : nat) :
  forall pos s, pos <> 0 -> find_from word_regex fuel pos s = None.
Proof.
  induction fuel as [|fuel IH]; intros pos s H.
  - cbn [find_from]. rewrite word_regex_later by assumption. reflexivity.
  - cbn [find_from]. rewrite word_regex_later by assumption.
    destruct s as [|c s]; [reflexivity|]. apply IH. lia.
Qed.

Lemma word_regex_at_start (w : string) :
  run word_regex 0 w []
    (fun pos' _ cs => Some ((0, substring 0 (pos' - 0) w) :: cs))
  = match split_word w with
    | Some (name, value) => Some [(0, w); (2, value); (1, name)]
    | None => None
    end.
Proof.
  unfold word_regex, split_word.
  change (Cat (Cat (Chr "=") (Group 2 (Star Any))) Eol) with tail_re.
  rewrite run_Cat, run_Bol. cbn [Nat.eqb]. rewrite run_Cat, run_Group, run_Cat, run_Chr.
  destruct w as [|c s1]; [reflexivity|].
  destruct (Ascii.eqb "="%char c) eqn:He; [|reflexivity].
  apply Ascii.eqb_eq in He. subst c. cbn [andb].
  rewrite run_Star. cbv beta.
  pose proof (star_any_then_tail (String "=" s1) s1 (String.length s1)
                (String "="%char EmptyString) eq_refl (Nat.le_refl _)) as H.
  cbn [String.length] in H. rewrite H. clear H.
  destruct (has_newline s1); [reflexivity|]. cbn [negb].
  destruct (split_last s1) as [[a b]|]; reflexivity.
Qed.

(** [FindStringSubmatch] with the pattern of [parse_sentence]: the
    word, all that precedes its last equals sign, and what follows
    it; nil when the pattern does not match. *)
Lemma FindStringSubmatch_word_regex (w : string) :
  FindStringSubmatch word_regex w
  = match split_word w with
    | Some (name, value) => [w; name; value]
    | None => []
    end.
Proof.
  unfold FindStringSubmatch.
  destruct (String.length w) as [|n] eqn:Hlen.
  - cbn [find_from]. rewrite word_regex_at_start.
    destruct (split_word w) as [[name value]|]; reflexivity.
  - cbn [find_from]. rewrite word_regex_at_start.
    destruct (split_word w) as [[name value]|]; [reflexivity|].
    destruct w as [|c s]; [reflexivity|].
    rewrite find_from_later by lia. reflexivity.
Qed.
End RegexpFacts.

(** ** Sentence parsing *)

Lemma parse_attributes_cons (word : string) (rest : list string)
    (attributes : gmap string string) :
  parse_attributes (word :: rest) attributes
  = match split_word word with
    | Some (name, value) => parse_attributes rest (<[name := value]> attributes)
    | None => Panic
    end.
Proof.
  cbn [parse_attributes]. rewrite RegexpFacts.FindStringSubmatch_word_regex.
  destruct (split_word word) as [[name value]|]; reflexivity.
Qed.

Lemma split_word_None (word : string) :
  Regexp.FindStringSubmatch word_regex word = [] <-> split_word word = None.
Proof.
  rewrite RegexpFacts.FindStringSubmatch_word_regex.
  destruct (split_word word) as [[name value]|]; split; intros H;
    try discriminate; reflexivity.
Qed.

(** The value that the pattern returns never holds an equals sign: the
    split is at the last one of the word. *)
Lemma split_last_value (s a b : string) :
  split_last s = Some (a, b) ->
  s = a +:+ String "="%char b /\ split_last b = None.
Proof.
  revert a b. induction s as [|c s IH]; intros a b H; [discriminate|].
  cbn [split_last] in H. destruct (split_last s) as [[a' b']|] eqn:Hs.
  - injection H as <- <-. destruct (IH a' b' eq_refl) as [-> Hb].
    split; [reflexivity | exact Hb].
  - destruct (Ascii.eqb "="%char c) eqn:Hc; [|discriminate].
    injection H as <- <-. apply Ascii.eqb_eq in Hc. subst c.
    split; [reflexivity | exact Hs].
Qed.

(** A word that does not begin with an equals sign, or that holds no
    second one, is not matched. *)
Lemma split_word_not_sigil (c : ascii) (s : string) :
  c <> "="%char -> split_word (String c s) = None.
Proof.
  intros H. cbn [split_word].
  destruct (Ascii.eqb "="%char c) eqn:Hc; [|reflexivity].
  apply Ascii.eqb_eq in Hc. congruence.
Qed.

Lemma split_word_no_second (s : string) :
  split_last s = None -> split_word (String "="%char s) = None.
Proof.
  intros H. cbn [split_word]. rewrite H.
  destruct (Ascii.eqb "=" "=" && negb (has_newline s)); reflexivity.
Qed.

Lemma parse_attributes_panic (before : list string) :
  forall word after attributes,
    split_word word = None ->
    parse_attributes (before ++ word :: after) attributes = Panic.
Proof.
  induction before as [|w before IH]; intros word after attributes H.
  - rewrite app_nil_l, parse_attributes_cons, H. reflexivity.
  - rewrite <- app_comm_cons, parse_attributes_cons.
    destruct (split_word w) as [[name value]|]; [|reflexivity].
    apply IH, H.
Qed.

(** C10. [parse_sentence] is not total: whenever a word after the first
    is not matched by the pattern, [FindStringSubmatch] returns nil and
    indexing it panics, so that [parse_sentence] returns nothing. *)
Theorem parse_sentence_panics (command word : string) (before after : list string) :
  Regexp.FindStringSubmatch word_regex word = [] ->
  parse_sentence (command :: before ++ word :: after) = Panic.
Proof.
  intros H. apply split_word_None in H. cbn [parse_sentence].
  rewrite parse_attributes_panic by exact H. reflexivity.
Qed.

Lemma parse_sentence_panics_witness :
  Regexp.FindStringSubmatch word_regex "=x" = [] /\
  parse_sentence ("!re" :: [] ++ "=x" :: []) = Panic.
Proof.
  split; [reflexivity|].
  apply (parse_sentence_panics "!re" "=x" [] []). reflexivity.
Defined.

(** Two shapes of a malformed word (no leading equals sign, no second
    equals sign), and the crash as the caller
    meets it: reading the sentence off the wire panics, and so does
    [RunCommand]. *)
Example parse_sentence_panics_examples :
  parse_sentence ["!re"; "x"] = Panic /\
  parse_sentence ["!re"; "=x"] = Panic /\
  read_sentence (fresh_conn [Wire.bare_attribute]) = Panic /\
  RunCommand 2 (fresh_conn [Wire.bare_attribute]) print_query [] = Panic.
Proof. repeat split; vm_compute; reflexivity. Qed.

(** C3, on the code. The word [=comment=a=b] is split at its last
    equals sign: the name is [=comment=a] and the value [b], and the
    sentence has no attribute [=comment]. *)
Theorem comment_split_at_last_equals :
  Regexp.FindStringSubmatch word_regex "=comment=a=b"
    = ["=comment=a=b"; "=comment=a"; "b"] /\
  parse_sentence ["!re"; "=comment=a=b"]
    = Ret (mkSentence "!re" (<["=comment=a" := "b"]> ∅)) /\
  (<["=comment=a" := "b"]> ∅ : gmap string string) !! "=comment" = None /\
  RunCommand 2 (fresh_conn [Wire.comment_reply]) print_query []
    = Ret ([mkSentence "!re" (<["=comment=a" := "b"]> ∅); done_sentence], None,
           mkConn [] print_query_bytes false 0).
Proof. repeat split; vm_compute; reflexivity. Qed.

(** ** Sentence round trip *)

Lemma write_sentence_words (conn : Conn) (sentence : Sentence)
    (order : list (string * string)) :
  write_sentence conn sentence order
  = fold_left write_word (sentence_words sentence order ++ [""]) conn.
Proof.
  unfold write_sentence, sentence_words.
  rewrite <- app_comm_cons. cbn [fold_left]. rewrite fold_left_app.
  cbn [fold_left]. f_equal.
  generalize (write_word conn (Command sentence)). clear conn.
  induction order as [|[attribute value] order IH]; intros conn;
    [reflexivity|].
  cbn [fold_left map]. apply IH.
Qed.

(** C4. Whatever the order in which the two attributes are visited, the
    words written for the sentence parse back to it; and on a
    connection that delivers the bytes written in one piece,
    [read_sentence] returns it. *)
Theorem set_sentence_roundtrip (order : list (string * string)) :
  range_order (Attributes set_sentence) order ->
  parse_sentence (sentence_words set_sentence order) = Ret set_sentence /\
  read_sentence
    (fresh_conn [sent (fresh_conn []) (write_sentence (fresh_conn []) set_sentence order)])
    = Ret (set_sentence, fresh_conn []).
Proof.
  unfold range_order. intros H.
  assert (E : map_to_list (Attributes set_sentence)
              = [("=connect-to", "203.0.113.9"); ("=.id", "*1")])
    by (vm_compute; reflexivity).
  rewrite E in H. symmetry in H. apply Permutation_length_2_inv in H.
  destruct H as [-> | ->]; split; vm_compute; reflexivity.
Qed.

Lemma set_sentence_roundtrip_witness :
  range_order (Attributes set_sentence)
    [("=.id", "*1"); ("=connect-to", "203.0.113.9")] /\
  parse_sentence
    (sentence_words set_sentence [("=.id", "*1"); ("=connect-to", "203.0.113.9")])
    = Ret set_sentence /\
  read_sentence
    (fresh_conn [sent (fresh_conn [])
                   (write_sentence (fresh_conn []) set_sentence
                      [("=.id", "*1"); ("=connect-to", "203.0.113.9")])])
    = Ret (set_sentence, fresh_conn []).
Proof.
  assert (H : range_order (Attributes set_sentence)
                [("=.id", "*1"); ("=connect-to", "203.0.113.9")])
    by (vm_compute; apply Permutation_swap).
  split; [exact H|].
  exact (set_sentence_roundtrip _ H).
Defined.

(** ** Word stream: short reads *)

(** C7, on the code. The prefix announces three bytes; the first segment
    brings two of them and the third comes in the next segment.
    [read_word] calls [Read] once and returns the buffer it made: the two
    bytes and a zero, while the third byte stays on the stream. *)
Theorem read_word_short_read :
  read_word (fresh_conn [[x03; x61; x62]; [x63]])
    = (String "a" (String "b" (String Ascii.zero EmptyString)), fresh_conn [[x63]]) /\
  String "a" (String "b" (String Ascii.zero EmptyString)) <> "abc".
Proof. split; [vm_compute; reflexivity | discriminate]. Qed.

(** ** The digest of the login *)

Module MD5Facts.
Import MD5.
Local Open Scope nat_scope.

(** More fuel than the bytes to absorb changes nothing. *)
Lemma blocks_fuel (f1 : nat) :
  forall f2 s p,
    List.length p <= f1 -> List.length p <= f2 -> blocks f1 s p = blocks f2 s p.
Proof.
  induction f1 as [|f1 IH]; intros f2 s p H1 H2.
  - destruct p; [|simpl in H1; lia]. destruct f2; reflexivity.
  - destruct f2 as [|f2].
    + destruct p; [reflexivity | simpl in H2; lia].
    + cbn [blocks]. destruct (64 <=? List.length p) eqn:E; [|reflexivity].
      apply Nat.leb_le in E.
      apply IH; rewrite length_skipn; lia.
Qed.

(** Absorbing [p] and then [q] is absorbing [p ++ q]. *)
Lemma blocks_app (fuel : nat) :
  forall s p q,
    List.length p <= fuel ->
    blocks (List.length ((blocks fuel s p).2 ++ q)) (blocks fuel s p).1
      ((blocks fuel s p).2 ++ q)
    = blocks (List.length (p ++ q)) s (p ++ q).
Proof.
  induction fuel as [|fuel IH]; intros s p q H.
  - destruct p; [reflexivity | simpl in H; lia].
  - cbn [blocks]. destruct (64 <=? List.length p) eqn:E.
    + apply Nat.leb_le in E.
      rewrite IH by (rewrite length_skipn; lia).
      destruct (List.length (p ++ q)) as [|n] eqn:Hn;
        [rewrite length_app in Hn; lia|].
      cbn [blocks].
      replace (64 <=? List.length (p ++ q)) with true
        by (symmetry; apply Nat.leb_le; rewrite length_app; lia).
      rewrite firstn_app, skipn_app.
      replace (64 - List.length p) with 0 by lia.
      rewrite firstn_O, skipn_O, app_nil_r.
      apply blocks_fuel.
      * reflexivity.
      * rewrite length_app, length_skipn. rewrite length_app in Hn. lia.
    + reflexivity.
Qed.

(** Two writes are one write of the concatenation. *)
Lemma Write_Write (d : digest) (a b : list byte) :
  Write_ (Write_ d a) b = Write_ d (a ++ b).
Proof.
  unfold Write_.
  pose proof (blocks_app (List.length (x d ++ a)) (s d) (x d ++ a) b
                (Nat.le_refl _)) as H.
  destruct (blocks (List.length (x d ++ a)) (s d) (x d ++ a)) as [s1 x1].
  cbn [s x len fst snd] in *.
  rewrite <- app_assoc in H. rewrite H.
  destruct (blocks (List.length (x d ++ a ++ b)) (s d) (x d ++ a ++ b)) as [s2 x2].
  f_equal. rewrite length_app, Nat2Z.inj_add.
  rewrite Zplus_mod_idemp_l. f_equal. lia.
Qed.
End MD5Facts.

(** The three writes of [Connect] to the digest are one write of the
    zero byte, the password and the seed. *)
Lemma login_response_md5 (password : string) (seed : list byte) :
  login_response password seed
  = "00" +:+ Hex.encode (MD5.md5 (x00 :: bytes_of_string password ++ seed)).
Proof.
  unfold login_response, MD5.md5.
  rewrite !MD5Facts.Write_Write. reflexivity.
Qed.

(** The model of crypto/md5 on the test suite of RFC 1321. *)
Example md5_rfc1321 :
  Hex.encode (MD5.md5 []) = "d41d8cd98f00b204e9800998ecf8427e" /\
  Hex.encode (MD5.md5 (bytes_of_string "a")) = "0cc175b9c0f1b6a831c399e269772661" /\
  Hex.encode (MD5.md5 (bytes_of_string "abc")) = "900150983cd24fb0d6963f7d28e17f72" /\
  Hex.encode (MD5.md5 (bytes_of_string "message digest"))
    = "f96b697d7cb7938d525a2f31aaf161d0" /\
  Hex.encode (MD5.md5 (bytes_of_string
    "12345678901234567890123456789012345678901234567890123456789012345678901234567890"))
    = "57edf4a22be3c955ac49da2e2107b67a".
Proof. repeat split; vm_compute; reflexivity. Qed.

(** ** Termination of read_sentence

    A read takes bytes off the stream or leaves it as it is, and a length
    that is not zero cost at least its first byte: the fuel given to the
    loop of [read_sentence] is enough, whatever arrives. *)

Lemma conn_Read_backlog (c : Conn) (k : nat) :
  let '(got, _, c') := conn_Read c k in
  (backlog c' + List.length got = backlog c)%nat.
Proof.
  unfold conn_Read, backlog, pending. destruct k as [|k]; [simpl; lia|].
  destruct c as [inb out wb fl]. cbn [inbound].
  destruct inb as [|seg more]; [reflexivity|].
  cbn [inbound concat]. rewrite length_app.
  pose proof (firstn_skipn (S k) seg) as Hfs.
  apply (f_equal (@List.length byte)) in Hfs. rewrite length_app in Hfs.
  destruct (skipn (S k) seg) as [|b left] eqn:Hleft.
  - simpl in Hfs. lia.
  - cbn [concat]. rewrite length_app. lia.
Qed.

Lemma read_byte_backlog (c : Conn) :
  (backlog (read_byte c).2 <= backlog c)%nat /\
  ((read_byte c).1 <> 0 -> (backlog (read_byte c).2 < backlog c)%nat).
Proof.
  unfold read_byte. pose proof (conn_Read_backlog c 1) as H.
  destruct (conn_Read c 1) as [[got e] c']. cbn [fst snd].
  split; [lia|]. intros Hz.
  destruct got as [|b got]; [exfalso; apply Hz; reflexivity|].
  simpl in H. lia.
Qed.

Ltac next_byte c z c' :=
  let Hle := fresh "Hle" in
  let Hlt := fresh "Hlt" in
  destruct (read_byte_backlog c) as [Hle Hlt];
  destruct (read_byte c) as [z c']; cbn [fst snd] in Hle, Hlt.

Lemma read_length_backlog (c : Conn) :
  (backlog (read_length c).2 <= backlog c)%nat /\
  ((read_length c).1 <> 0 -> (backlog (read_length c).2 < backlog c)%nat).
Proof.
  rewrite read_length_banded_eq. unfold read_length_banded.
  next_byte c z c1.
  assert (Hz : (z <? 0x80) = false -> z <> 0) by (intros H ->; discriminate H).
  destruct (z <? 0x80) eqn:E1; [cbn [fst snd]; split; [lia | exact Hlt]|].
  specialize (Hlt (Hz eq_refl)).
  destruct (z <? 0xC0);
    [next_byte c1 b1 c2; cbn [fst snd]; split; lia|].
  destruct (z <? 0xE0);
    [next_byte c1 b1 c2; next_byte c2 b2 c3; cbn [fst snd]; split; lia|].
  destruct (z <? 0xF0);
    [next_byte c1 b1 c2; next_byte c2 b2 c3; next_byte c3 b3 c4;
     cbn [fst snd]; split; lia|].
  destruct (z <? 0xF8);
    [next_byte c1 b0 c2; next_byte c2 b1 c3; next_byte c3 b2 c4;
     next_byte c4 b3 c5; cbn [fst snd]; split; lia|].
  cbn [fst snd]. split; lia.
Qed.

Lemma read_word_backlog (c : Conn) :
  (backlog (read_word c).2 <= backlog c)%nat /\
  ((len (read_word c).1 =? 0) = false -> (backlog (read_word c).2 < backlog c)%nat).
Proof.
  unfold read_word.
  destruct (read_length_backlog c) as [Hle Hlt].
  destruct (read_length c) as [n c1]. cbn [fst snd] in Hle, Hlt.
  destruct (Z.eq_dec n 0) as [->|Hn].
  - cbn. split; [exact Hle | discriminate].
  - specialize (Hlt Hn).
    pose proof (conn_Read_backlog c1 (Z.to_nat n)) as Hr.
    destruct (conn_Read c1 (Z.to_nat n)) as [[got e] c2]. cbn [fst snd].
    split; lia.
Qed.

Lemma parse_attributes_returns (words : list string) :
  forall attributes, parse_attributes words attributes <> Hang.
Proof.
  induction words as [|word rest IH]; intros attributes; [discriminate|].
  cbn [parse_attributes].
  destruct (_ !! 1%nat); [|discriminate].
  destruct (_ !! 2%nat); [apply IH | discriminate].
Qed.

Lemma parse_sentence_returns (words : list string) (c : Conn) :
  parse_sentence words ≫= (fun sentence => Ret (sentence, c)) <> Hang.
Proof.
  destruct words as [|command rest]; [discriminate|].
  cbn [parse_sentence]. pose proof (parse_attributes_returns rest ∅) as H.
  destruct (parse_attributes rest ∅); [discriminate | discriminate | congruence].
Qed.

Lemma read_words_returns (fuel : nat) :
  forall c words, (backlog c <= fuel)%nat -> read_words fuel c words <> Hang.
Proof.
  induction fuel as [|fuel IH]; intros c words Hb.
  - destruct (read_word_backlog c) as [_ Hlt].
    cbn [read_words]. destruct (read_word c) as [w c1]. cbn [fst snd] in Hlt.
    destruct (len w =? 0); [|specialize (Hlt eq_refl); lia].
    apply parse_sentence_returns.
  - destruct (read_word_backlog c) as [_ Hlt].
    cbn [read_words]. destruct (read_word c) as [w c1]. cbn [fst snd] in Hlt.
    destruct (len w =? 0).
    + apply parse_sentence_returns.
    + specialize (Hlt eq_refl). apply IH. lia.
Qed.

(** [read_sentence] always comes back: with a sentence or with a
    panic. *)
Lemma read_sentence_returns (c : Conn) : read_sentence c <> Hang.
Proof. apply read_words_returns. reflexivity. Qed.

(** Once the peer has closed the stream every sentence read is the
    no-data sentence, and the loop of [RunCommand], which only leaves on
    [!done], goes on for as long as it is run. *)
Lemma RunCommand_loop_closed_stream (fuel : nat) :
  forall out wb fl reply err,
    RunCommand_loop fuel (mkConn [] out wb fl) reply err = Hang.
Proof.
  induction fuel as [|fuel IH]; intros out wb fl reply err; [reflexivity|].
  cbn [RunCommand_loop]. change (read_sentence (mkConn [] out wb fl))
    with (Ret (no_data, mkConn [] out wb (S fl)) : outcome (Sentence * Conn)).
  apply IH.
Qed.

(** * Further properties of the client *)

(** ** Length codec: range and edge cases *)

Lemma read_byte_head (c : Conn) (b : byte) (seg : list byte)
    (more : list (list byte)) :
  inbound c = (b :: seg) :: more ->
  read_byte c = (of_byte b, with_inbound c (rest_of seg more)).
Proof.
  intros H. unfold read_byte, conn_Read, with_inbound, rest_of. rewrite H.
  cbn [firstn skipn]. destruct seg; reflexivity.
Qed.


Ltac head_read :=
  erewrite read_byte_head by reflexivity; rewrite of_to_byte.

(** [read_length] on a segment that starts with the prefix written for
    [n]: the low 32 bits of [n], and the segment is left at the byte
    after the prefix. *)
Lemma read_length_frame (n : Z) (c : Conn) (tail : list byte)
    (more : list (list byte)) :
  0 <= n ->
  inbound c = (length_bytes n ++ tail) :: more ->
  read_length c = (n mod 2 ^ 32, with_inbound c (rest_of tail more)).
Proof.
  intros Hn Hin. rewrite read_length_banded_eq. unfold read_length_banded.
  destruct (Z.lt_ge_cases n 0x80) as [H1|H1];
  [|destruct (Z.lt_ge_cases n 0x4000) as [H2|H2];
    [|destruct (Z.lt_ge_cases n 0x200000) as [H3|H3];
      [|destruct (Z.lt_ge_cases n 0x10000000) as [H4|H4]]]].
  - rewrite length_bytes_1 in Hin by lia. cbn [app] in Hin.
    rewrite (read_byte_head _ _ _ _ Hin), of_to_byte. pick_band.
    f_equal. Z.div_mod_to_equations. lia.
  - rewrite length_bytes_2 in Hin by lia. cbn [app] in Hin.
    rewrite (read_byte_head _ _ _ _ Hin), of_to_byte. pick_band.
    head_read. f_equal. be_arith.
  - rewrite length_bytes_3 in Hin by lia. cbn [app] in Hin.
    rewrite (read_byte_head _ _ _ _ Hin), of_to_byte. pick_band.
    do 2 head_read. f_equal. be_arith.
  - rewrite length_bytes_4 in Hin by lia. cbn [app] in Hin.
    rewrite (read_byte_head _ _ _ _ Hin), of_to_byte. pick_band.
    do 3 head_read. f_equal. be_arith.
  - rewrite length_bytes_5 in Hin by lia. cbn [app] in Hin.
    rewrite (read_byte_head _ _ _ _ Hin), of_to_byte.
    change (240 mod 256) with 240. cbn [Z.ltb Z.compare Pos.compare Pos.compare_cont].
    do 4 head_read. f_equal. be_arith.
Qed.

(** X2. A first byte of 0xF8 or more, which the protocol keeps for
    control bytes, matches no case of the switch: [read_length] returns
    it as a length of 248 to 255 and reads no further byte. *)
Theorem read_length_control_byte (c : Conn) (b : byte) (seg : list byte)
    (more : list (list byte)) :
  inbound c = (b :: seg) :: more ->
  0xF8 <= of_byte b ->
  read_length c = (of_byte b, with_inbound c (rest_of seg more)).
Proof.
  intros Hin Hb. rewrite read_length_banded_eq. unfold read_length_banded.
  rewrite (read_byte_head _ _ _ _ Hin). pose proof (of_byte_range b).
  pick_band. reflexivity.
Qed.

Lemma read_length_control_byte_witness :
  inbound (fresh_conn [[xfa; x01]]) = (xfa :: [x01]) :: [] /\
  0xF8 <= of_byte xfa /\
  read_length (fresh_conn [[xfa; x01]])
    = (of_byte xfa, with_inbound (fresh_conn [[xfa; x01]]) (rest_of [x01] [])).
Proof.
  split; [reflexivity|]. split; [vm_compute; discriminate|].
  apply (read_length_control_byte (fresh_conn [[xfa; x01]]) xfa [x01] []);
    [reflexivity | vm_compute; discriminate].
Defined.

(** X3. A length of 2^32 or more does not fit the four bytes of the
    longest form: [write_length] sends 0xF0 and the low 32 bits, and
    [read_length] returns the length modulo 2^32, not the length. *)
Theorem write_length_truncates (n : Z) (w r : Conn) (tail : list byte)
    (more : list (list byte)) :
  0x100000000 <= n ->
  wr_broken w = false ->
  inbound r = (sent w (write_length w n) ++ tail) :: more ->
  List.length (sent w (write_length w n)) = 5%nat /\
  read_length r = (n mod 2 ^ 32, with_inbound r (rest_of tail more)) /\
  n mod 2 ^ 32 <> n.
Proof.
  intros Hn Hw Hin. unfold write_length in *.
  rewrite sent_conn_Write in * by assumption.
  split; [rewrite length_bytes_5 by lia; reflexivity|].
  split; [apply read_length_frame; [lia | exact Hin]|].
  Z.div_mod_to_equations. lia.
Qed.

Lemma write_length_truncates_witness :
  0x100000000 <= 0x100000005 /\
  wr_broken (fresh_conn []) = false /\
  inbound (fresh_conn [[xf0; x00; x00; x00; x05; x2f]])
    = (sent (fresh_conn []) (write_length (fresh_conn []) 0x100000005) ++ [x2f]) :: [] /\
  List.length (sent (fresh_conn []) (write_length (fresh_conn []) 0x100000005)) = 5%nat /\
  read_length (fresh_conn [[xf0; x00; x00; x00; x05; x2f]])
    = (0x100000005 mod 2 ^ 32,
       with_inbound (fresh_conn [[xf0; x00; x00; x00; x05; x2f]]) (rest_of [x2f] [])) /\
  0x100000005 mod 2 ^ 32 <> 0x100000005.
Proof.
  split; [lia|]. split; [reflexivity|]. split; [reflexivity|].
  apply (write_length_truncates 0x100000005 (fresh_conn [])
           (fresh_conn [[xf0; x00; x00; x00; x05; x2f]]) [x2f] []);
    [lia | reflexivity | reflexivity].
Defined.

(** ** Word stream: a word that arrives whole *)

Lemma length_bytes_of_string (s : string) :
  List.length (bytes_of_string s) = String.length s.
Proof.
  unfold bytes_of_string, list_byte_of_string.
  rewrite length_map. induction s as [|a s IH]; simpl; [reflexivity|].
  rewrite IH. reflexivity.
Qed.

(** [read_word] on a segment that starts with the frame of a word. *)
Lemma read_word_frame (word : string) (c : Conn) (tail : list byte)
    (more : list (list byte)) :
  len word <= 0xFFFFFFFF ->
  inbound c = (frame word ++ tail) :: more ->
  read_word c = (word, with_inbound c (rest_of tail more)).
Proof.
  intros Hlen Hin. unfold read_word, frame in *.
  rewrite <- app_assoc in Hin.
  assert (H0 : 0 <= len word) by (unfold len; lia).
  rewrite (read_length_frame (len word) c (bytes_of_string word ++ tail) more H0 Hin).
  rewrite Z.mod_small by (unfold len in *; lia).
  unfold len. rewrite Nat2Z.id.
  pose proof (length_bytes_of_string word) as Hl.
  destruct word as [|a word].
  - reflexivity.
  - remember (bytes_of_string (String a word)) as bs eqn:Hbs.
    destruct bs as [|b0 bs]; [discriminate Hl|].
    unfold conn_Read, with_inbound, rest_of, buffer.
    cbn [inbound app String.length] in *.
    change (b0 :: bs ++ tail) with ((b0 :: bs) ++ tail).
    rewrite <- Hl. rewrite firstn_app, skipn_app, firstn_all, skipn_all.
    rewrite Nat.sub_diag. cbn [firstn skipn app]. rewrite app_nil_r.
    rewrite Nat.sub_diag. cbn [repeat]. rewrite app_nil_r.
    rewrite Hbs. unfold string_of_bytes, bytes_of_string.
    rewrite string_of_list_byte_of_string.
    destruct tail; reflexivity.
Qed.

(** X4. A word shorter than 2^32 bytes comes back as it was written:
    [write_word] sends the prefix of its length and then its bytes, and
    when these arrive in one segment [read_word] returns the word and
    leaves the segment at the byte after it. *)
Theorem write_read_word (word : string) (w r : Conn) (tail : list byte)
    (more : list (list byte)) :
  len word <= 0xFFFFFFFF ->
  wr_broken w = false ->
  inbound r = (sent w (write_word w word) ++ tail) :: more ->
  sent w (write_word w word) = frame word /\
  read_word r = (word, with_inbound r (rest_of tail more)).
Proof.
  intros Hlen Hw Hin.
  assert (Hs : sent w (write_word w word) = frame word).
  { unfold write_word, write_length, conn_Write, sent, frame. rewrite Hw.
    cbn [snd wr_broken outbound]. rewrite <- app_assoc.
    rewrite skipn_app, skipn_all, Nat.sub_diag, skipn_O. reflexivity. }
  split; [exact Hs|]. rewrite Hs in Hin.
  apply read_word_frame; assumption.
Qed.

Lemma write_read_word_witness :
  len "!done" <= 0xFFFFFFFF /\
  wr_broken (fresh_conn []) = false /\
  inbound (fresh_conn [Wire.done])
    = (sent (fresh_conn []) (write_word (fresh_conn []) "!done") ++ [x00]) :: [] /\
  sent (fresh_conn []) (write_word (fresh_conn []) "!done") = frame "!done" /\
  read_word (fresh_conn [Wire.done])
    = ("!done", with_inbound (fresh_conn [Wire.done]) (rest_of [x00] [])).
Proof.
  split; [vm_compute; discriminate|]. split; [reflexivity|].
  split; [reflexivity|].
  apply (write_read_word "!done" (fresh_conn []) (fresh_conn [Wire.done]) [x00] []);
    [vm_compute; discriminate | reflexivity | reflexivity].
Defined.

(** ** Sentences: the general round trip *)

Lemma split_last_no_equals (s : string) :
  has_equals s = false -> split_last s = None.
Proof.
  induction s as [|c s IH]; intros H; [reflexivity|].
  cbn [has_equals] in H. apply orb_false_elim in H as [Hc Hs].
  cbn [split_last]. rewrite (IH Hs), Hc. reflexivity.
Qed.

Lemma split_last_append (a value : string) :
  has_equals value = false ->
  split_last (a +:+ String "="%char value) = Some (a, value).
Proof.
  intros H. induction a as [|c a IH].
  - rewrite RegexpFacts.append_nil. cbn [split_last].
    rewrite (split_last_no_equals _ H). reflexivity.
  - rewrite RegexpFacts.append_cons. cbn [split_last]. rewrite IH. reflexivity.
Qed.

Lemma has_newline_append (a b : string) :
  has_newline (a +:+ b) = has_newline a || has_newline b.
Proof.
  induction a as [|c a IH]; [reflexivity|].
  rewrite RegexpFacts.append_cons. cbn [has_newline]. rewrite IH.
  apply orb_assoc.
Qed.

Lemma split_word_attribute (name value : string) :
  attribute_ok name value = true ->
  split_word (name +:+ "=" +:+ value) = Some (name, value).
Proof.
  unfold attribute_ok. intros H.
  destruct name as [|c n1]; [discriminate H|].
  repeat (apply andb_prop in H as [H ?]).
  rewrite RegexpFacts.append_cons. cbn [split_word]. rewrite H.
  cbn [has_newline] in *.
  repeat match goal with Hx : negb _ = true |- _ => apply negb_true_iff in Hx end.
  match goal with Hn : (_ || has_newline n1) = false |- _ =>
    apply orb_false_elim in Hn as [_ Hn1] end.
  change ("=" +:+ value) with (String "="%char value).
  rewrite has_newline_append, Hn1. cbn [has_newline orb].
  change (Ascii.eqb "=" Regexp.newline) with false.
  match goal with Hv : has_newline value = false |- _ => rewrite Hv end.
  cbn [orb andb negb].
  rewrite split_last_append by assumption. reflexivity.
Qed.

Lemma parse_attributes_written (order : list (string * string)) :
  forall attributes,
    Forall (fun p => attribute_ok p.1 p.2 = true) order ->
    parse_attributes
      (map (fun '(attribute, value) => attribute +:+ "=" +:+ value) order) attributes
    = Ret (fold_left (fun m p => <[p.1 := p.2]> m) order attributes).
Proof.
  induction order as [|[name value] order IH]; intros attributes H;
    [reflexivity|].
  inversion H as [|? ? Hok Hrest]; subst. cbn [map fold_left fst snd] in *.
  rewrite parse_attributes_cons, (split_word_attribute _ _ Hok).
  apply IH, Hrest.
Qed.

Lemma fold_left_insert_range (m : gmap string string)
    (order : list (string * string)) :
  range_order m order ->
  fold_left (fun m p => <[p.1 := p.2]> m) order ∅ = m.
Proof.
  unfold range_order. intros H.
  assert (Hp : rev order ≡ₚ map_to_list m)
    by (etrans; [symmetry; apply Permutation_rev | exact H]).
  rewrite <- (list_to_map_to_list m).
  transitivity (list_to_map (rev order) : gmap string string).
  - unfold list_to_map. rewrite fold_left_rev_right. reflexivity.
  - apply list_to_map_proper; [|exact Hp].
    assert (Hfst : (rev order).*1 ≡ₚ (map_to_list m).*1)
      by (apply fmap_Permutation, Hp).
    rewrite Hfst. apply NoDup_fst_map_to_list.
Qed.

(** X5. For any sentence whose attributes have a name that begins with
    the equals sigil, a value without equals sign, and no newline, and
    for any order in which [range] visits them, the words that
    [write_sentence] writes are parsed back by [parse_sentence] to the
    same command and the same attributes. *)
Theorem sentence_words_roundtrip (s : Sentence) (order : list (string * string)) :
  range_order (Attributes s) order ->
  forallb (fun p => attribute_ok p.1 p.2) order = true ->
  parse_sentence (sentence_words s order) = Ret s.
Proof.
  intros Hrange Hok. unfold sentence_words. cbn [parse_sentence].
  rewrite parse_attributes_written.
  - rewrite (fold_left_insert_range _ _ Hrange). destruct s; reflexivity.
  - apply Forall_forall. intros p Hp. rewrite forallb_forall in Hok.
    apply Hok, list_elem_of_In, Hp.
Qed.

Lemma sentence_words_roundtrip_witness :
  range_order (Attributes re_print)
    [("=.id", "*3"); ("=connect-to", "10.0.0.5"); ("=running", "false")] /\
  forallb (fun p => attribute_ok p.1 p.2)
    [("=.id", "*3"); ("=connect-to", "10.0.0.5"); ("=running", "false")] = true /\
  parse_sentence
    (sentence_words re_print
       [("=.id", "*3"); ("=connect-to", "10.0.0.5"); ("=running", "false")])
    = Ret re_print.
Proof.
  assert (H : range_order (Attributes re_print)
                [("=.id", "*3"); ("=connect-to", "10.0.0.5"); ("=running", "false")]).
  { vm_compute. apply perm_swap. }
  split; [exact H|]. split; [reflexivity|].
  exact (sentence_words_roundtrip re_print _ H eq_refl).
Defined.

(** ** Sentences on the wire *)

Lemma write_word_outbound (c : Conn) (word : string) :
  wr_broken c = false ->
  write_word c word = mkConn (inbound c) (outbound c ++ frame word) false (faults c).
Proof.
  intros H. unfold write_word, write_length, conn_Write, frame. rewrite H.
  cbn [snd wr_broken inbound outbound faults]. rewrite app_assoc. reflexivity.
Qed.

Lemma write_words_outbound (words : list string) :
  forall c,
    wr_broken c = false ->
    fold_left write_word words c
    = mkConn (inbound c) (outbound c ++ wire words) false (faults c).
Proof.
  induction words as [|word words IH]; intros c H.
  - unfold wire. cbn [fold_left map concat]. rewrite app_nil_r, <- H.
    destruct c; reflexivity.
  - cbn [fold_left]. rewrite write_word_outbound by exact H.
    rewrite IH by reflexivity. cbn [inbound outbound faults].
    unfold wire. cbn [map concat]. rewrite app_assoc. reflexivity.
Qed.

Lemma write_sentence_outbound (c : Conn) (s : Sentence) (order : list (string * string)) :
  wr_broken c = false ->
  write_sentence c s order
  = mkConn (inbound c)
      (outbound c ++ wire (sentence_words s order) ++ [x00]) false (faults c).
Proof.
  intros H. rewrite write_sentence_words, write_words_outbound by exact H.
  unfold wire. rewrite map_app, concat_app. reflexivity.
Qed.

(** X6. On a connection whose write side works, what [write_sentence]
    sends is the frame of the command, the frame of one word name=value
    per attribute in the order of the visit, and one zero byte; it leaves
    alone what is still to arrive, and no call reports an error. *)
Theorem write_sentence_wire (c : Conn) (s : Sentence) (order : list (string * string)) :
  wr_broken c = false ->
  sent c (write_sentence c s order) = wire (sentence_words s order) ++ [x00] /\
  inbound (write_sentence c s order) = inbound c /\
  wr_broken (write_sentence c s order) = false /\
  faults (write_sentence c s order) = faults c.
Proof.
  intros H. rewrite write_sentence_outbound by exact H.
  cbn [inbound wr_broken faults outbound]. split; [|repeat split].
  unfold sent. cbn [outbound].
  rewrite skipn_app, skipn_all, Nat.sub_diag, skipn_O. reflexivity.
Qed.

Lemma write_sentence_wire_witness :
  wr_broken (fresh_conn []) = false /\
  sent (fresh_conn []) (write_sentence (fresh_conn []) print_query [])
    = wire (sentence_words print_query []) ++ [x00] /\
  inbound (write_sentence (fresh_conn []) print_query []) = inbound (fresh_conn []) /\
  wr_broken (write_sentence (fresh_conn []) print_query []) = false /\
  faults (write_sentence (fresh_conn []) print_query []) = faults (fresh_conn []).
Proof.
  split; [reflexivity|].
  apply (write_sentence_wire (fresh_conn []) print_query []). reflexivity.
Defined.

Lemma frame_not_nil (word : string) : frame word <> [].
Proof.
  unfold frame, length_bytes.
  repeat match goal with |- context [if ?b then _ else _] => destruct b end;
    discriminate.
Qed.

Lemma wire_length (words : list string) :
  (List.length words <= List.length (wire words))%nat.
Proof.
  induction words as [|word words IH]; [simpl; lia|].
  unfold wire in *. cbn [map concat]. rewrite length_app.
  pose proof (frame_not_nil word). destruct (frame word); [congruence|].
  simpl. lia.
Qed.

(** The loop of [read_sentence] on a segment that starts with a run of
    framed words and a zero byte. *)
Lemma read_words_wire (words : list string) :
  forall c acc fuel tail more,
    Forall (fun word => word <> "" /\ len word <= 0xFFFFFFFF) words ->
    inbound c = (wire words ++ x00 :: tail) :: more ->
    (List.length words <= fuel)%nat ->
    read_words fuel c acc
    = parse_sentence (acc ++ words) ≫=
        (fun sentence => Ret (sentence, with_inbound c (rest_of tail more))).
Proof.
  induction words as [|word words IH]; intros c acc fuel tail more Hw Hin Hfuel.
  - assert (Hr : read_word c = ("", with_inbound c (rest_of tail more))).
    { apply (read_word_frame "" c tail more); [vm_compute; discriminate | exact Hin]. }
    rewrite app_nil_r. destruct fuel; cbn [read_words]; rewrite Hr; reflexivity.
  - inversion Hw as [|? ? [Hne Hlen] Hrest]; subst.
    unfold wire in Hin. cbn [map concat] in Hin. rewrite <- app_assoc in Hin.
    fold (wire words) in Hin.
    pose proof (read_word_frame word c _ more Hlen Hin) as Hr.
    destruct fuel as [|fuel]; [simpl in Hfuel; lia|].
    cbn [read_words]. rewrite Hr, len_eqb_0.
    destruct (String.eqb word "") eqn:E; [apply String.eqb_eq in E; congruence|].
    assert (Hcons : rest_of (wire words ++ x00 :: tail) more
                    = (wire words ++ x00 :: tail) :: more)
      by (destruct (wire words); reflexivity).
    rewrite Hcons.
    rewrite (IH (with_inbound c ((wire words ++ x00 :: tail) :: more))
               (acc ++ [word]) fuel tail more Hrest eq_refl)
      by (simpl in Hfuel; lia).
    rewrite <- app_assoc. reflexivity.
Qed.

(** X7. Any sentence with a command, with attributes that the reader
    takes back (see X5) and with words shorter than 2^32 bytes survives
    the wire: when the bytes that [write_sentence] sent arrive in one
    segment, [read_sentence] returns the sentence and stops right after
    its closing zero byte. *)
Theorem sentence_wire_roundtrip (s : Sentence) (order : list (string * string))
    (w r : Conn) (tail : list byte) (more : list (list byte)) :
  range_order (Attributes s) order ->
  forallb (fun p => attribute_ok p.1 p.2) order = true ->
  forallb (fun word => negb (String.eqb word "") && (len word <=? 0xFFFFFFFF))
    (sentence_words s order) = true ->
  wr_broken w = false ->
  inbound r = (sent w (write_sentence w s order) ++ tail) :: more ->
  read_sentence r = Ret (s, with_inbound r (rest_of tail more)).
Proof.
  intros Hrange Hok Hwords Hw Hin.
  rewrite write_sentence_outbound in Hin by exact Hw.
  unfold sent in Hin. cbn [outbound] in Hin.
  rewrite skipn_app, skipn_all, Nat.sub_diag, skipn_O in Hin.
  cbn [app] in Hin. rewrite <- app_assoc in Hin. cbn [app] in Hin.
  unfold read_sentence.
  rewrite (read_words_wire (sentence_words s order) r [] _ tail more).
  - rewrite app_nil_l. unfold sentence_words. cbn [parse_sentence].
    rewrite parse_attributes_written.
    + rewrite (fold_left_insert_range _ _ Hrange). destruct s; reflexivity.
    + apply Forall_forall. intros p Hp. rewrite forallb_forall in Hok.
      apply Hok, list_elem_of_In, Hp.
  - apply Forall_forall. intros word Hword. rewrite forallb_forall in Hwords.
    apply list_elem_of_In, Hwords in Hword. apply andb_prop in Hword as [H1 H2].
    split.
    + apply negb_true_iff, String.eqb_neq in H1. exact H1.
    + apply Z.leb_le in H2. exact H2.
  - exact Hin.
  - unfold pending. rewrite Hin. cbn [concat]. rewrite !length_app.
    pose proof (wire_length (sentence_words s order)). lia.
Qed.

Lemma sentence_wire_roundtrip_witness :
  range_order (Attributes re_print)
    [("=running", "false"); ("=connect-to", "10.0.0.5"); ("=.id", "*3")] /\
  forallb (fun p => attribute_ok p.1 p.2)
    [("=running", "false"); ("=connect-to", "10.0.0.5"); ("=.id", "*3")] = true /\
  forallb (fun word => negb (String.eqb word "") && (len word <=? 0xFFFFFFFF))
    (sentence_words re_print
       [("=running", "false"); ("=connect-to", "10.0.0.5"); ("=.id", "*3")]) = true /\
  wr_broken (fresh_conn []) = false /\
  inbound (fresh_conn [Wire.print_reply])
  = (sent (fresh_conn [])
       (write_sentence (fresh_conn []) re_print
          [("=running", "false"); ("=connect-to", "10.0.0.5"); ("=.id", "*3")])
       ++ Wire.done) :: [] /\
  read_sentence (fresh_conn [Wire.print_reply])
  = Ret (re_print,
         with_inbound (fresh_conn [Wire.print_reply]) (rest_of Wire.done [])).
Proof.
  assert (H : range_order (Attributes re_print)
                [("=running", "false"); ("=connect-to", "10.0.0.5"); ("=.id", "*3")]).
  { vm_compute. apply Permutation_cons_append. }
  split; [exact H|]. split; [reflexivity|]. split; [reflexivity|].
  split; [reflexivity|]. split; [reflexivity|].
  exact (sentence_wire_roundtrip re_print _ (fresh_conn [])
           (fresh_conn [Wire.print_reply]) Wire.done []
           H eq_refl eq_refl eq_refl eq_refl).
Defined.

(** ** The pattern and the parser, in full *)

Lemma split_last_has_equals (s : string) :
  split_last s = None -> has_equals s = false.
Proof.
  induction s as [|c s IH]; intros H; [reflexivity|].
  cbn [split_last] in H. destruct (split_last s) as [[a b]|]; [discriminate|].
  destruct (Ascii.eqb "="%char c) eqn:Hc; [discriminate|].
  cbn [has_equals]. rewrite Hc, IH; reflexivity.
Qed.

Lemma split_word_attribute_ok (word name value : string) :
  split_word word = Some (name, value) ->
  word = name +:+ "=" +:+ value /\ attribute_ok name value = true.
Proof.
  destruct word as [|c s1]; [discriminate|]. cbn [split_word].
  destruct (Ascii.eqb "="%char c) eqn:Hc; [|discriminate].
  destruct (has_newline s1) eqn:Hnl; [discriminate|]. cbn [andb negb].
  destruct (split_last s1) as [[a b]|] eqn:Hs; [|discriminate].
  intros H. injection H as <- <-.
  destruct (split_last_value _ _ _ Hs) as [-> Hb].
  apply split_last_has_equals in Hb.
  change ("=" +:+ b) with (String "="%char b).
  split; [reflexivity|].
  rewrite has_newline_append in Hnl. apply orb_false_elim in Hnl as [Ha Hb'].
  cbn [has_newline] in Hb'. apply orb_false_elim in Hb' as [_ Hb'].
  unfold attribute_ok. rewrite Hc. cbn [has_newline].
  apply Ascii.eqb_eq in Hc. subst c.
  change (Ascii.eqb "=" Regexp.newline) with false.
  cbn [orb]. rewrite Ha, Hb', Hb. reflexivity.
Qed.

(** X8. The pattern of [parse_sentence] matches a word, with a given
    name and value as its groups, exactly when the word is the name, an
    equals sign and the value, where the name begins with an equals sign,
    the value holds no equals sign and neither holds a newline. The name
    is thus all that precedes the last equals sign of the word. *)
Theorem word_pattern_match (word name value : string) :
  Regexp.FindStringSubmatch word_regex word = [word; name; value] <->
  word = name +:+ "=" +:+ value /\ attribute_ok name value = true.
Proof.
  rewrite RegexpFacts.FindStringSubmatch_word_regex. split.
  - destruct (split_word word) as [[n v]|] eqn:Hs; [|discriminate].
    intros H. injection H as <- <-. apply split_word_attribute_ok, Hs.
  - intros [-> Hok]. rewrite (split_word_attribute _ _ Hok). reflexivity.
Qed.

Lemma word_pattern_match_witness :
  ("=comment=a=b" = "=comment=a" +:+ "=" +:+ "b" /\
   attribute_ok "=comment=a" "b" = true) /\
  Regexp.FindStringSubmatch word_regex "=comment=a=b"
    = ["=comment=a=b"; "=comment=a"; "b"].
Proof.
  split; [split; reflexivity|].
  apply (proj2 (word_pattern_match "=comment=a=b" "=comment=a" "b")).
  split; reflexivity.
Defined.

Lemma parse_attributes_app (l1 : list string) :
  forall l2 attributes,
    parse_attributes (l1 ++ l2) attributes
    = parse_attributes l1 attributes ≫= parse_attributes l2.
Proof.
  induction l1 as [|w l1 IH]; intros l2 attributes; [reflexivity|].
  rewrite <- app_comm_cons, !parse_attributes_cons.
  destruct (split_word w) as [[name value]|]; [apply IH | reflexivity].
Qed.

Lemma parse_attributes_other (words : list string) :
  forall attributes m name,
    parse_attributes words attributes = Ret m ->
    Forall (fun w => forall value, split_word w <> Some (name, value)) words ->
    m !! name = attributes !! name.
Proof.
  induction words as [|w words IH]; intros attributes m name H Hno.
  - injection H as <-. reflexivity.
  - rewrite parse_attributes_cons in H.
    inversion Hno as [|? ? Hw Hrest]; subst.
    destruct (split_word w) as [[n v]|] eqn:Hs; [|discriminate].
    rewrite (IH _ _ _ H Hrest). apply lookup_insert_ne.
    intros ->. apply (Hw v). reflexivity.
Qed.

(** X9. When [parse_sentence] returns, the sentence has the first word
    as its command, and for a word name=value that no later word of the
    same name follows, the attribute [name] has that value: of two words
    with one name the last wins. *)
Theorem parse_sentence_last_wins (command word name value : string)
    (before after : list string) (s : Sentence) :
  parse_sentence (command :: before ++ word :: after) = Ret s ->
  Regexp.FindStringSubmatch word_regex word = [word; name; value] ->
  Forall (fun w => Regexp.FindStringSubmatch word_regex w !! 1%nat <> Some name) after ->
  Command s = command /\ Attributes s !! name = Some value.
Proof.
  intros H Hword Hafter. cbn [parse_sentence] in H.
  destruct (parse_attributes (before ++ word :: after) ∅) as [m| |] eqn:Hp;
    try discriminate.
  injection H as <-. split; [reflexivity|]. cbn [Attributes].
  rewrite parse_attributes_app in Hp.
  destruct (parse_attributes before ∅) as [m0| |];
    unfold mbind, outcome_bind in Hp; try discriminate.
  rewrite parse_attributes_cons in Hp.
  rewrite RegexpFacts.FindStringSubmatch_word_regex in Hword.
  destruct (split_word word) as [[n v]|]; [|discriminate].
  injection Hword as -> ->.
  rewrite (parse_attributes_other _ _ _ name Hp).
  - apply lookup_insert_eq.
  - eapply Forall_impl; [exact Hafter|]. intros w Hw v' Hs. apply Hw.
    rewrite RegexpFacts.FindStringSubmatch_word_regex, Hs. reflexivity.
Qed.

Lemma parse_sentence_last_wins_witness :
  parse_sentence ("!re" :: ["=a=1"] ++ "=a=2" :: ["=b=3"])
    = Ret (mkSentence "!re" (<["=b" := "3"]> (<["=a" := "2"]> ∅))) /\
  Regexp.FindStringSubmatch word_regex "=a=2" = ["=a=2"; "=a"; "2"] /\
  Forall (fun w => Regexp.FindStringSubmatch word_regex w !! 1%nat <> Some "=a") ["=b=3"] /\
  Command (mkSentence "!re" (<["=b" := "3"]> (<["=a" := "2"]> ∅))) = "!re" /\
  Attributes (mkSentence "!re" (<["=b" := "3"]> (<["=a" := "2"]> ∅))) !! "=a" = Some "2".
Proof.
  assert (H1 : parse_sentence ("!re" :: ["=a=1"] ++ "=a=2" :: ["=b=3"])
    = Ret (mkSentence "!re" (<["=b" := "3"]> (<["=a" := "2"]> ∅))))
    by (vm_compute; reflexivity).
  assert (H3 : Forall (fun w => Regexp.FindStringSubmatch word_regex w !! 1%nat
                                <> Some "=a") ["=b=3"])
    by (constructor; [vm_compute; discriminate | constructor]).
  split; [exact H1|]. split; [reflexivity|]. split; [exact H3|].
  exact (parse_sentence_last_wins "!re" "=a=2" "=a" "2" ["=a=1"] ["=b=3"] _
           H1 eq_refl H3).
Defined.

(** X10. [parse_sentence] returns a sentence exactly when every word
    after the first is matched by the pattern; otherwise it panics. *)
Theorem parse_sentence_returns_iff (command : string) (rest : list string) :
  (exists s, parse_sentence (command :: rest) = Ret s) <->
  Forall (fun w => Regexp.FindStringSubmatch word_regex w <> []) rest.
Proof.
  cbn [parse_sentence].
  assert (Hgen : forall words attributes,
             (exists m, parse_attributes words attributes = Ret m) <->
             Forall (fun w => Regexp.FindStringSubmatch word_regex w <> []) words).
  { induction words as [|w words IH]; intros attributes.
    - split; [constructor | eexists; reflexivity].
    - rewrite parse_attributes_cons. rewrite Forall_cons.
      rewrite RegexpFacts.FindStringSubmatch_word_regex.
      destruct (split_word w) as [[n v]|].
      + rewrite IH. split; [intros H; split; [discriminate | exact H] | intros [_ H]; exact H].
      + split; [intros [m H]; discriminate | intros [H _]; congruence]. }
  rewrite <- (Hgen rest ∅). split.
  - intros [s H]. destruct (parse_attributes rest ∅) as [m| |]; try discriminate.
    eexists; reflexivity.
  - intros [m ->]. eexists; reflexivity.
Qed.

Lemma parse_sentence_returns_iff_witness :
  Forall (fun w => Regexp.FindStringSubmatch word_regex w <> []) ["=a=1"; "=b=2"] /\
  exists s, parse_sentence ("!re" :: ["=a=1"; "=b=2"]) = Ret s.
Proof.
  assert (H : Forall (fun w => Regexp.FindStringSubmatch word_regex w <> [])
                ["=a=1"; "=b=2"])
    by (repeat constructor; vm_compute; discriminate).
  split; [exact H|].
  exact (proj2 (parse_sentence_returns_iff "!re" ["=a=1"; "=b=2"]) H).
Defined.

(** ** Reading: termination and what it leaves alone *)

Lemma read_words_fuel (f1 : nat) :
  forall f2 c words,
    (backlog c <= f1)%nat -> (backlog c <= f2)%nat ->
    read_words f1 c words = read_words f2 c words.
Proof.
  induction f1 as [|f1 IH]; intros f2 c words H1 H2.
  - destruct (read_word_backlog c) as [_ Hlt].
    destruct f2; cbn [read_words]; destruct (read_word c) as [w c1];
      cbn [fst snd] in Hlt; destruct (len w =? 0); try reflexivity;
      specialize (Hlt eq_refl); lia.
  - destruct (read_word_backlog c) as [_ Hlt].
    destruct f2 as [|f2]; cbn [read_words]; destruct (read_word c) as [w c1];
      cbn [fst snd] in Hlt; destruct (len w =? 0); try reflexivity;
      specialize (Hlt eq_refl); [lia|].
    apply IH; lia.
Qed.

(** X11. The loop of [read_sentence] ends on every stream: it needs no
    more rounds than there are bytes to arrive, running it for longer
    changes nothing, and [read_sentence] returns a sentence or panics in
    [parse_sentence]; on a stream that the peer has closed it returns the
    no-data sentence. *)
Theorem read_sentence_terminates (c : Conn) (fuel : nat) :
  (backlog c <= fuel)%nat ->
  read_words fuel c [] = read_sentence c /\
  read_sentence c <> Hang /\
  (inbound c = [] -> exists c', read_sentence c = Ret (no_data, c')).
Proof.
  intros H. split; [|split].
  - unfold read_sentence. apply read_words_fuel; [exact H | reflexivity].
  - apply read_sentence_returns.
  - intros Hin. destruct c as [inb out wb fl]. cbn [inbound] in Hin. subst inb.
    eexists. reflexivity.
Qed.

Lemma read_sentence_terminates_witness :
  (backlog (fresh_conn [Wire.done]) <= 100)%nat /\
  read_words 100 (fresh_conn [Wire.done]) [] = read_sentence (fresh_conn [Wire.done]) /\
  read_sentence (fresh_conn [Wire.done]) <> Hang /\
  (inbound (fresh_conn [Wire.done]) = [] ->
   exists c', read_sentence (fresh_conn [Wire.done]) = Ret (no_data, c')).
Proof.
  split; [vm_compute; lia|].
  apply (read_sentence_terminates (fresh_conn [Wire.done]) 100).
  vm_compute. lia.
Defined.

Lemma same_write_side_refl (c : Conn) : same_write_side c c.
Proof. split; reflexivity. Qed.

Lemma same_write_side_trans (c1 c2 c3 : Conn) :
  same_write_side c1 c2 -> same_write_side c2 c3 -> same_write_side c1 c3.
Proof. intros [H1 H2] [H3 H4]. split; congruence. Qed.

Lemma conn_Read_write_side (c : Conn) (k : nat) :
  same_write_side c (conn_Read c k).2.
Proof.
  unfold conn_Read. destruct k; [apply same_write_side_refl|].
  destruct (inbound c); split; reflexivity.
Qed.

Lemma read_byte_write_side (c : Conn) : same_write_side c (read_byte c).2.
Proof.
  unfold read_byte. pose proof (conn_Read_write_side c 1) as H.
  destruct (conn_Read c 1) as [[got e] c']. exact H.
Qed.

Ltac quiet_byte c z c' :=
  let H := fresh "Hq" in
  pose proof (read_byte_write_side c) as H;
  destruct (read_byte c) as [z c']; cbn [snd] in H.

Lemma read_length_write_side (c : Conn) : same_write_side c (read_length c).2.
Proof.
  rewrite read_length_banded_eq. unfold read_length_banded.
  quiet_byte c z c1.
  destruct (z <? 0x80); [exact Hq|].
  destruct (z <? 0xC0);
    [quiet_byte c1 b1 c2; cbn [snd]; eauto using same_write_side_trans|].
  destruct (z <? 0xE0);
    [quiet_byte c1 b1 c2; quiet_byte c2 b2 c3; cbn [snd];
     eauto using same_write_side_trans|].
  destruct (z <? 0xF0);
    [quiet_byte c1 b1 c2; quiet_byte c2 b2 c3; quiet_byte c3 b3 c4; cbn [snd];
     eauto using same_write_side_trans|].
  destruct (z <? 0xF8);
    [quiet_byte c1 b0 c2; quiet_byte c2 b1 c3; quiet_byte c3 b2 c4;
     quiet_byte c4 b3 c5; cbn [snd]; eauto 6 using same_write_side_trans|].
  exact Hq.
Qed.

Lemma read_word_write_side (c : Conn) : same_write_side c (read_word c).2.
Proof.
  unfold read_word. pose proof (read_length_write_side c) as H1.
  destruct (read_length c) as [n c1]. cbn [snd] in H1.
  pose proof (conn_Read_write_side c1 (Z.to_nat n)) as H2.
  destruct (conn_Read c1 (Z.to_nat n)) as [[got e] c2]. cbn [snd] in *.
  eapply same_write_side_trans; eassumption.
Qed.

Lemma read_words_write_side (fuel : nat) :
  forall c words s c',
    read_words fuel c words = Ret (s, c') -> same_write_side c c'.
Proof.
  induction fuel as [|fuel IH]; intros c words s c' H;
    cbn [read_words] in H; pose proof (read_word_write_side c) as Hw;
    destruct (read_word c) as [w c1]; cbn [snd] in Hw;
    destruct (len w =? 0).
  - destruct (parse_sentence words); simpl in H; try discriminate.
    injection H as <- <-. exact Hw.
  - discriminate.
  - destruct (parse_sentence words); simpl in H; try discriminate.
    injection H as <- <-. exact Hw.
  - apply IH in H. eapply same_write_side_trans; eassumption.
Qed.

Lemma RunCommand_loop_write_side (fuel : nat) :
  forall c reply err reply' err' c',
    RunCommand_loop fuel c reply err = Ret (reply', err', c') ->
    same_write_side c c'.
Proof.
  induction fuel as [|fuel IH]; intros c reply err reply' err' c' H;
    [discriminate|].
  cbn [RunCommand_loop] in H.
  destruct (read_sentence c) as [[s c1]| |] eqn:Hs; simpl in H; try discriminate.
  apply read_words_write_side in Hs.
  destruct (len (Command s) =? 0).
  - apply IH in H. eapply same_write_side_trans; eassumption.
  - destruct (String.eqb (Command s) "!done").
    + injection H as <- <- <-. exact Hs.
    + apply IH in H. eapply same_write_side_trans; eassumption.
Qed.

(** X12. Reading never writes: when [RunCommand] returns, all it has
    sent is the sentence of the command, in the format of X6, however
    many sentences it read. *)
Theorem RunCommand_sends_only_command (fuel : nat) (c : Conn)
    (command : Sentence) (order : list (string * string))
    (reply : list Sentence) (err : error) (c' : Conn) :
  wr_broken c = false ->
  RunCommand fuel c command order = Ret (reply, err, c') ->
  sent c c' = wire (sentence_words command order) ++ [x00].
Proof.
  intros Hw H. unfold RunCommand in H.
  apply RunCommand_loop_write_side in H as [Hout _].
  rewrite write_sentence_outbound in Hout by exact Hw. cbn [outbound] in Hout.
  unfold sent. rewrite Hout, skipn_app, skipn_all, Nat.sub_diag, skipn_O.
  reflexivity.
Qed.

Lemma RunCommand_sends_only_command_witness :
  wr_broken (fresh_conn [Wire.print_reply]) = false /\
  RunCommand 2 (fresh_conn [Wire.print_reply]) print_query []
    = Ret ([re_print; done_sentence], None, mkConn [] print_query_bytes false 0) /\
  sent (fresh_conn [Wire.print_reply]) (mkConn [] print_query_bytes false 0)
    = wire (sentence_words print_query []) ++ [x00].
Proof.
  assert (H : RunCommand 2 (fresh_conn [Wire.print_reply]) print_query []
    = Ret ([re_print; done_sentence], None, mkConn [] print_query_bytes false 0))
    by (vm_compute; reflexivity).
  split; [reflexivity|]. split; [exact H|].
  exact (RunCommand_sends_only_command 2 (fresh_conn [Wire.print_reply])
           print_query [] _ _ _ eq_refl H).
Defined.

(** ** RunCommand: the reply as a function of the stream *)

(** X13. The Reply is the stream up to its first [!done]: when the
    sentences that follow the command are [ss], without [!done], and
    then a [!done] sentence, [RunCommand] returns those of [ss] that
    carry a command, in the order of arrival, then the [!done] sentence,
    with the error that the traps of [ss] leave; it stops reading right
    after [!done]. *)
Theorem RunCommand_reply_of_stream (n fuel : nat) (c : Conn) (command : Sentence)
    (order : list (string * string)) (ss : list Sentence) (d : Sentence)
    (c' : Conn) :
  read_sentences n (write_sentence c command order) = Ret (ss ++ [d], c') ->
  forallb (fun s => negb (is_done s)) ss = true ->
  is_done d = true ->
  (n <= fuel)%nat ->
  RunCommand fuel c command order
    = Ret (List.filter has_command ss ++ [d], trap_error ss, c').
Proof.
  intros Hr Hss Hd Hfuel.
  pose proof (read_sentences_length _ _ _ _ Hr) as Hlen.
  rewrite length_app in Hlen. cbn [List.length] in Hlen.
  destruct n as [|k]; [lia|].
  apply read_sentences_snoc in Hr as (c1 & Hk & Hlast).
  unfold RunCommand. replace fuel with (k + S (fuel - S k))%nat by lia.
  rewrite (RunCommand_loop_reads k _ _ _ _ _ _ Hk Hss).
  rewrite (RunCommand_loop_done _ _ _ _ _ _ Hlast Hd). reflexivity.
Qed.

Lemma RunCommand_reply_of_stream_witness :
  read_sentences 2 (write_sentence (fresh_conn [Wire.print_reply]) print_query [])
    = Ret ([re_print] ++ [done_sentence], mkConn [] print_query_bytes false 0) /\
  forallb (fun s => negb (is_done s)) [re_print] = true /\
  is_done done_sentence = true /\
  (2 <= 5)%nat /\
  RunCommand 5 (fresh_conn [Wire.print_reply]) print_query []
    = Ret (List.filter has_command [re_print] ++ [done_sentence],
           trap_error [re_print], mkConn [] print_query_bytes false 0).
Proof.
  assert (H : read_sentences 2
                (write_sentence (fresh_conn [Wire.print_reply]) print_query [])
    = Ret ([re_print] ++ [done_sentence], mkConn [] print_query_bytes false 0))
    by (vm_compute; reflexivity).
  split; [exact H|]. split; [reflexivity|]. split; [reflexivity|].
  split; [lia|].
  apply (RunCommand_reply_of_stream 2 5 _ _ _ [re_print] done_sentence _ H);
    [reflexivity | reflexivity | lia].
Defined.

Lemma RunCommand_loop_more_fuel (fuel : nat) :
  forall c reply err,
    RunCommand_loop fuel c reply err <> Hang ->
    RunCommand_loop (S fuel) c reply err = RunCommand_loop fuel c reply err.
Proof.
  induction fuel as [|fuel IH]; intros c reply err H; [contradiction H; reflexivity|].
  remember (S fuel) as f eqn:Hf. cbn [RunCommand_loop]. rewrite Hf in *.
  cbn [RunCommand_loop] in H |- *.
  destruct (read_sentence c) as [[s c1]| |]; try reflexivity.
  unfold mbind, outcome_bind in *.
  destruct (len (Command s) =? 0); [apply IH, H|].
  destruct (String.eqb (Command s) "!done"); [reflexivity | apply IH, H].
Qed.

Lemma RunCommand_loop_hang_less_fuel (k : nat) :
  forall fuel c reply err,
    RunCommand_loop (k + fuel) c reply err = Hang ->
    RunCommand_loop fuel c reply err = Hang.
Proof.
  induction k as [|k IH]; intros fuel c reply err H; [exact H|].
  apply IH. cbn [Nat.add] in H.
  destruct (RunCommand_loop (k + fuel) c reply err) as [x| |] eqn:E;
    [|rewrite RunCommand_loop_more_fuel in H by congruence; congruence | reflexivity].
  rewrite RunCommand_loop_more_fuel in H by congruence. congruence.
Qed.

Lemma write_sentence_inbound (c : Conn) (s : Sentence) (order : list (string * string)) :
  inbound (write_sentence c s order) = inbound c.
Proof.
  rewrite write_sentence_words.
  generalize (sentence_words s order ++ [""]). intros words. revert c.
  induction words as [|w words IH]; intros c; [reflexivity|].
  cbn [fold_left]. rewrite IH.
  unfold write_word, write_length, conn_Write.
  destruct (wr_broken c); reflexivity.
Qed.

(** X14. A stream that ends before any [!done] makes [RunCommand] spin:
    when the sentences that follow the command hold no [!done] and the
    peer has closed the stream after them, every further read gives the
    no-data sentence and [RunCommand] does not return, however long it
    runs. *)
Theorem RunCommand_spins_without_done (n : nat) (c : Conn) (command : Sentence)
    (order : list (string * string)) (ss : list Sentence) (c' : Conn)
    (fuel : nat) :
  read_sentences n (write_sentence c command order) = Ret (ss, c') ->
  forallb (fun s => negb (is_done s)) ss = true ->
  inbound c' = [] ->
  RunCommand fuel c command order = Hang.
Proof.
  intros Hr Hss Hin. unfold RunCommand.
  apply (RunCommand_loop_hang_less_fuel n).
  rewrite (RunCommand_loop_reads n _ _ _ _ _ _ Hr Hss).
  destruct c' as [inb out wb fl]. cbn [inbound] in Hin. subst inb.
  apply RunCommand_loop_closed_stream.
Qed.

Lemma RunCommand_spins_without_done_witness :
  read_sentences 1
    (write_sentence (fresh_conn [Wire.word x03 "!re" ++ [x00]]) print_query [])
    = Ret ([mkSentence "!re" ∅], mkConn [] print_query_bytes false 0) /\
  forallb (fun s => negb (is_done s)) [mkSentence "!re" ∅] = true /\
  inbound (mkConn [] print_query_bytes false 0) = [] /\
  RunCommand 1000 (fresh_conn [Wire.word x03 "!re" ++ [x00]]) print_query [] = Hang.
Proof.
  assert (H : read_sentences 1
    (write_sentence (fresh_conn [Wire.word x03 "!re" ++ [x00]]) print_query [])
    = Ret ([mkSentence "!re" ∅], mkConn [] print_query_bytes false 0))
    by (vm_compute; reflexivity).
  split; [exact H|]. split; [reflexivity|]. split; [reflexivity|].
  exact (RunCommand_spins_without_done 1 _ _ _ _ _ 1000 H eq_refl eq_refl).
Defined.

(** ** Connect and Close *)

Lemma RunCommand_write_side (fuel : nat) (c : Conn) (command : Sentence)
    (order : list (string * string)) (reply : list Sentence) (err : error)
    (c' : Conn) :
  wr_broken c = false ->
  RunCommand fuel c command order = Ret (reply, err, c') ->
  outbound c' = outbound c ++ wire (sentence_words command order) ++ [x00] /\
  wr_broken c' = false.
Proof.
  intros Hw H. unfold RunCommand in H.
  apply RunCommand_loop_write_side in H as [Hout Hbr].
  rewrite write_sentence_outbound in Hout, Hbr by exact Hw.
  split; assumption.
Qed.



(** X16. A command on a closed connection never returns: after [Close]
    nothing of the sentence is sent, every [Read] fails and is taken for
    an empty word, and the loop of [RunCommand] goes on reading. *)
Theorem RunCommand_after_Close_spins (client : Client) (c : Conn) (fuel : nat)
    (command : Sentence) (order : list (string * string)) :
  conn client = Some c ->
  exists client',
    Close client = Ret client' /\
    conn client' = Some (conn_Close c) /\
    outbound (write_sentence (conn_Close c) command order) = outbound c /\
    RunCommand fuel (conn_Close c) command order = Hang.
Proof.
  intros Hc. unfold Close. rewrite Hc. eexists. split; [reflexivity|].
  split; [reflexivity|]. split.
  - rewrite write_sentence_words.
    generalize (sentence_words command order ++ [""]). intros words.
    change (outbound c) with (outbound (conn_Close c)).
    assert (Hb : wr_broken (conn_Close c) = true) by reflexivity.
    revert Hb. generalize (conn_Close c). clear.
    induction words as [|w words IH]; intros c0 Hb; [reflexivity|].
    cbn [fold_left]. rewrite IH.
    + unfold write_word, write_length, conn_Write. rewrite Hb.
      cbn [snd wr_broken]. reflexivity.
    + unfold write_word, write_length, conn_Write. rewrite Hb. reflexivity.
  - unfold RunCommand.
    pose proof (write_sentence_inbound (conn_Close c) command order) as Hin.
    destruct (write_sentence (conn_Close c) command order) as [inb out wb fl].
    cbn [inbound conn_Close] in Hin. subst inb.
    apply RunCommand_loop_closed_stream.
Qed.

Lemma RunCommand_after_Close_spins_witness :
  conn (mkClient "192.168.88.1" 8728 "admin" "" (Some (fresh_conn [Wire.done])))
    = Some (fresh_conn [Wire.done]) /\
  exists client',
    Close (mkClient "192.168.88.1" 8728 "admin" "" (Some (fresh_conn [Wire.done])))
      = Ret client' /\
    conn client' = Some (conn_Close (fresh_conn [Wire.done])) /\
    outbound (write_sentence (conn_Close (fresh_conn [Wire.done])) print_query [])
      = outbound (fresh_conn [Wire.done]) /\
    RunCommand 1000 (conn_Close (fresh_conn [Wire.done])) print_query [] = Hang.
Proof.
  split; [reflexivity|].
  apply (RunCommand_after_Close_spins
           (mkClient "192.168.88.1" 8728 "admin" "" (Some (fresh_conn [Wire.done])))
           (fresh_conn [Wire.done]) 1000 print_query []).
  reflexivity.
Defined.

(** ** The login on the wire *)

Lemma range_nil (range : gmap string string -> list (string * string)) :
  range_visits range -> range ∅ = [].
Proof.
  intros H. specialize (H ∅). unfold range_order in H.
  rewrite map_to_list_empty in H. apply Permutation_nil_r in H. exact H.
Qed.

(** A map of two entries is visited in one of two orders. *)
Lemma range_two (range : gmap string string -> list (string * string))
    (k1 v1 k2 v2 : string) :
  range_visits range -> k1 <> k2 ->
  range (<[k1 := v1]> (<[k2 := v2]> ∅)) = [(k2, v2); (k1, v1)] \/
  range (<[k1 := v1]> (<[k2 := v2]> ∅)) = [(k1, v1); (k2, v2)].
Proof.
  intros H Hk. specialize (H (<[k1 := v1]> (<[k2 := v2]> ∅))).
  unfold range_order in H.
  rewrite map_to_list_insert in H
    by (rewrite lookup_insert_ne by congruence; apply lookup_empty).
  rewrite insert_empty, map_to_list_singleton in H.
  symmetry in H. apply Permutation_length_2_inv in H as [H|H]; auto.
Qed.

Lemma sent_app (c c' : Conn) (bytes : list byte) :
  outbound c' = outbound c ++ bytes -> sent c c' = bytes.
Proof.
  intros H. unfold sent. rewrite H, skipn_app, skipn_all, Nat.sub_diag, skipn_O.
  reflexivity.
Qed.

(** What [Connect] has written when it returns with the connection in
    place after a first reply that holds a sentence and no trap: the two
    login sentences, the second with the attributes of [login_sentence]
    in the order of the visit. *)
Lemma Connect_outbound (fuel : nat) (dial : string -> Z -> Conn + string)
    (range : gmap string string -> list (string * string))
    (client client' : Client) (err : error) (c0 c1 c' : Conn)
    (r0 : Sentence) (reply1 : list Sentence) :
  dial (Host client) (Port client) = inl c0 ->
  wr_broken c0 = false ->
  RunCommand fuel c0 (mkSentence "/login" ∅) (range ∅) = Ret (r0 :: reply1, None, c1) ->
  Connect fuel dial range client = Ret (err, client') ->
  conn client' = Some c' ->
  outbound c1
  = outbound c0 ++ wire (sentence_words (mkSentence "/login" ∅) (range ∅)) ++ [x00] /\
  outbound c'
  = outbound c1 ++
    wire (sentence_words (login_sentence client r0)
            (range (Attributes (login_sentence client r0)))) ++ [x00].
Proof.
  intros Hdial Hw H1 H Hc. unfold Connect in H. rewrite Hdial in H.
  cbn [Attributes] in H. rewrite H1 in H. simpl in H.
  destruct (RunCommand_write_side _ _ _ _ _ _ _ Hw H1) as [Ho1 Hw1].
  split; [exact Ho1|].
  unfold login_sentence. cbn [Attributes].
  destruct (Hex.DecodeString (map_index (Attributes r0) "=ret")) as [seed bad].
  cbn [fst].
  destruct (RunCommand fuel c1 _ _) as [[[reply2 err2] c2]| |] eqn:H2;
    simpl in H; try discriminate.
  destruct (RunCommand_write_side _ _ _ _ _ _ _ Hw1 H2) as [Ho2 _].
  assert (Hcc : c' = c2).
  { destruct err2 as [e2|].
    - injection H as _ <-. cbn [conn] in Hc. congruence.
    - destruct (first_sentence reply2) as [r1| |]; simpl in H; try discriminate.
      destruct (String.eqb (map_index (Attributes r1) "=ret") "error");
        injection H as _ <-; cbn [conn] in Hc; congruence. }
  subst c'. exact Ho2.
Qed.

(** C6. The response that [Connect] computes and sends. Whenever
    [Connect] has dialled a connection whose write side works, has read
    the seed off the first sentence of the first reply and returns with
    the connection in place, its second login sentence carries, beside
    the user as [=name], the word [=response=] followed by "00" and the
    lowercase hexadecimal MD5 digest of one zero byte, the bytes of the
    password and the decoded seed, the two attributes in either order;
    for the password "secret" and the seed 01 02 the response is the
    value below. *)
Theorem Connect_response_digest (fuel : nat) (dial : string -> Z -> Conn + string)
    (range : gmap string string -> list (string * string))
    (client client' : Client) (err : error) (c0 c1 c' : Conn)
    (r0 : Sentence) (reply1 : list Sentence) (seed : list byte) (bad : bool) :
  range_visits range ->
  dial (Host client) (Port client) = inl c0 ->
  wr_broken c0 = false ->
  RunCommand fuel c0 (mkSentence "/login" ∅) [] = Ret (r0 :: reply1, None, c1) ->
  Hex.DecodeString (map_index (Attributes r0) "=ret") = (seed, bad) ->
  Connect fuel dial range client = Ret (err, client') ->
  conn client' = Some c' ->
  let response :=
    "00" +:+ Hex.encode (MD5.md5 (x00 :: bytes_of_string (Password client) ++ seed)) in
  login_response (Password client) seed = response /\
  (sent c1 c'
   = frame "/login" ++ frame ("=name=" +:+ User client) ++
     frame ("=response=" +:+ response) ++ [x00]
   \/
   sent c1 c'
   = frame "/login" ++ frame ("=response=" +:+ response) ++
     frame ("=name=" +:+ User client) ++ [x00]) /\
  login_response "secret" [x01; x02] = "004dd5fcece4221500e9b7ddc5ad7bbba1".
Proof.
  intros Hr Hdial Hw H1 Hseed H Hc response.
  split; [apply login_response_md5|]. split; [|vm_compute; reflexivity].
  rewrite <- (range_nil range Hr) in H1.
  destruct (Connect_outbound _ _ _ _ _ _ _ _ _ _ _ Hdial Hw H1 H Hc) as [_ Ho].
  apply sent_app in Ho. rewrite Ho. clear Ho.
  unfold login_sentence. cbn [Attributes]. rewrite Hseed. cbn [fst].
  rewrite login_response_md5. fold response.
  destruct (range_two range "=response" response "=name" (User client) Hr)
    as [-> | ->]; [discriminate | left | right];
    unfold sentence_words, wire; cbn [map concat Command];
    rewrite <- !app_assoc; rewrite app_nil_l; reflexivity.
Qed.

Lemma Connect_response_digest_witness :
  exists client' c1 c' r0 reply1,
    range_visits map_to_list /\
    (fun (_ : string) (_ : Z) => inl (fresh_conn [Wire.seed_then_done]) : Conn + string)
      "192.168.88.1" 8728 = inl (fresh_conn [Wire.seed_then_done]) /\
    wr_broken (fresh_conn [Wire.seed_then_done]) = false /\
    RunCommand 2 (fresh_conn [Wire.seed_then_done]) (mkSentence "/login" ∅) []
      = Ret (r0 :: reply1, None, c1) /\
    Hex.DecodeString (map_index (Attributes r0) "=ret") = ([x01; x02], false) /\
    Connect 2 (fun _ _ => inl (fresh_conn [Wire.seed_then_done])) map_to_list
      (mkClient "192.168.88.1" 8728 "admin" "secret" None)
      = Ret (None, client') /\
    conn client' = Some c' /\
    let response :=
      "00" +:+ Hex.encode (MD5.md5 (x00 :: bytes_of_string "secret" ++ [x01; x02])) in
    login_response "secret" [x01; x02] = response /\
    (sent c1 c'
     = frame "/login" ++ frame ("=name=" +:+ "admin") ++
       frame ("=response=" +:+ response) ++ [x00]
     \/
     sent c1 c'
     = frame "/login" ++ frame ("=response=" +:+ response) ++
       frame ("=name=" +:+ "admin") ++ [x00]) /\
    login_response "secret" [x01; x02] = "004dd5fcece4221500e9b7ddc5ad7bbba1".
Proof.
  eexists. eexists. eexists. eexists. eexists.
  split; [intros m; apply Permutation_refl|]. split; [reflexivity|]. split; [reflexivity|].
  split; [vm_compute; reflexivity|]. split; [vm_compute; reflexivity|].
  split; [vm_compute; reflexivity|]. split; [reflexivity|].
  eapply (Connect_response_digest 2
           (fun _ _ => inl (fresh_conn [Wire.seed_then_done])) map_to_list
           (mkClient "192.168.88.1" 8728 "admin" "secret" None) _ None
           (fresh_conn [Wire.seed_then_done]) _ _ _ _ [x01; x02] false);
    [intros m; apply Permutation_refl | reflexivity | reflexivity | vm_compute; reflexivity
    | vm_compute; reflexivity | vm_compute; reflexivity | reflexivity].
Defined.

(** [Connect] against a router that answers the first login with the
    seed 0102 and accepts the second, the attributes visited in the one
    order and in the other. *)
Example Connect_sends_response :
  Connect 2
    (fun _ _ => inl (fresh_conn [Wire.seed_then_done])) map_to_list
    (mkClient "192.168.88.1" 8728 "admin" "secret" None)
  = Ret (None,
         mkClient "192.168.88.1" 8728 "admin" "secret"
           (Some (mkConn []
                    (Wire.word x06 "/login" ++ [x00] ++
                     Wire.word x06 "/login" ++ Wire.word x0b "=name=admin" ++
                     Wire.word x2c "=response=004dd5fcece4221500e9b7ddc5ad7bbba1" ++
                     [x00])
                    false 0))) /\
  Connect 2
    (fun _ _ => inl (fresh_conn [Wire.seed_then_done])) (fun m => rev (map_to_list m))
    (mkClient "192.168.88.1" 8728 "admin" "secret" None)
  = Ret (None,
         mkClient "192.168.88.1" 8728 "admin" "secret"
           (Some (mkConn []
                    (Wire.word x06 "/login" ++ [x00] ++
                     Wire.word x06 "/login" ++
                     Wire.word x2c "=response=004dd5fcece4221500e9b7ddc5ad7bbba1" ++
                     Wire.word x0b "=name=admin" ++ [x00])
                    false 0))).
Proof. split; vm_compute; reflexivity. Qed.

(** X17. The login on the wire: when the dial gives a connection whose
    write side works and [Connect] succeeds, all that it has sent is the
    sentence [/login] alone and then the sentence [/login] with the user
    as [=name] and, as [=response], what [login_response] makes of the
    password and of the seed that the first sentence of the first reply
    carries under [=ret], the two attributes in either order. *)
Theorem Connect_sends_two_logins (fuel : nat) (dial : string -> Z -> Conn + string)
    (range : gmap string string -> list (string * string))
    (client client' : Client) (c0 : Conn) :
  range_visits range ->
  dial (Host client) (Port client) = inl c0 ->
  wr_broken c0 = false ->
  Connect fuel dial range client = Ret (None, client') ->
  exists c' r0 reply1 c1,
    conn client' = Some c' /\
    RunCommand fuel c0 (mkSentence "/login" ∅) [] = Ret (r0 :: reply1, None, c1) /\
    let name := "=name=" +:+ User client in
    let response :=
      "=response=" +:+
      login_response (Password client)
        (Hex.DecodeString (map_index (Attributes r0) "=ret")).1 in
    (sent c0 c'
     = frame "/login" ++ [x00] ++
       frame "/login" ++ frame name ++ frame response ++ [x00]
     \/
     sent c0 c'
     = frame "/login" ++ [x00] ++
       frame "/login" ++ frame response ++ frame name ++ [x00]).
Proof.
  intros Hr Hdial Hw H.
  assert (Hshape : exists c' r0 reply1 c1,
             conn client' = Some c' /\
             RunCommand fuel c0 (mkSentence "/login" ∅) (range ∅)
               = Ret (r0 :: reply1, None, c1)).
  { unfold Connect in H. rewrite Hdial in H. cbn [Attributes] in H.
    destruct (RunCommand fuel c0 (mkSentence "/login" ∅) (range ∅))
      as [[[reply1 err1] c1]| |] eqn:H1; simpl in H; try discriminate.
    destruct err1 as [e1|]; [discriminate|].
    destruct reply1 as [|r0 reply1]; simpl in H; [discriminate|].
    destruct (Hex.DecodeString (map_index (Attributes r0) "=ret")) as [seed bad].
    destruct (RunCommand fuel c1 _ _) as [[[reply2 err2] c2]| |];
      simpl in H; try discriminate.
    destruct err2 as [e2|]; [discriminate|].
    destruct (first_sentence reply2) as [r1| |]; simpl in H; try discriminate.
    destruct (String.eqb (map_index (Attributes r1) "=ret") "error");
      [discriminate|].
    injection H as <-. exists c2, r0, reply1, c1. split; reflexivity. }
  destruct Hshape as (c' & r0 & reply1 & c1 & Hc & H1).
  destruct (Connect_outbound _ _ _ _ _ _ _ _ _ _ _ Hdial Hw H1 H Hc) as [Ho1 Ho2].
  rewrite (range_nil range Hr) in H1, Ho1.
  exists c', r0, reply1, c1. split; [exact Hc|]. split; [exact H1|].
  intros name response.
  rewrite Ho1, <- app_assoc in Ho2. apply sent_app in Ho2. rewrite Ho2. clear Ho2.
  unfold login_sentence. cbn [Attributes]. fold response.
  destruct (range_two range "=response"
              (login_response (Password client)
                 (Hex.DecodeString (map_index (Attributes r0) "=ret")).1)
              "=name" (User client) Hr)
    as [-> | ->]; [discriminate | left | right];
    unfold sentence_words, wire; cbn [map concat Command];
    rewrite <- !app_assoc; rewrite ?app_nil_l; reflexivity.
Qed.

Lemma Connect_sends_two_logins_witness :
  range_visits map_to_list /\
  (fun (_ : string) (_ : Z) => inl (fresh_conn [Wire.seed_then_done]) : Conn + string)
    "192.168.88.1" 8728 = inl (fresh_conn [Wire.seed_then_done]) /\
  wr_broken (fresh_conn [Wire.seed_then_done]) = false /\
  exists client',
    Connect 2 (fun _ _ => inl (fresh_conn [Wire.seed_then_done])) map_to_list
      (mkClient "192.168.88.1" 8728 "admin" "secret" None)
    = Ret (None, client') /\
    exists c' r0 reply1 c1,
      conn client' = Some c' /\
      RunCommand 2 (fresh_conn [Wire.seed_then_done]) (mkSentence "/login" ∅) []
        = Ret (r0 :: reply1, None, c1) /\
      let name := "=name=" +:+ "admin" in
      let response :=
        "=response=" +:+
        login_response "secret" (Hex.DecodeString (map_index (Attributes r0) "=ret")).1 in
      (sent (fresh_conn [Wire.seed_then_done]) c'
       = frame "/login" ++ [x00] ++
         frame "/login" ++ frame name ++ frame response ++ [x00]
       \/
       sent (fresh_conn [Wire.seed_then_done]) c'
       = frame "/login" ++ [x00] ++
         frame "/login" ++ frame response ++ frame name ++ [x00]).
Proof.
  split; [intros m; apply Permutation_refl|]. split; [reflexivity|]. split; [reflexivity|].
  eexists. split; [vm_compute; reflexivity|].
  apply (Connect_sends_two_logins 2
           (fun _ _ => inl (fresh_conn [Wire.seed_then_done])) map_to_list
           (mkClient "192.168.88.1" 8728 "admin" "secret" None) _
           (fresh_conn [Wire.seed_then_done]));
    [intros m; apply Permutation_refl | reflexivity | reflexivity | vm_compute; reflexivity].
Defined.

(** ** The updater: which address, and when the router is changed *)

Section UpdaterFacts.

Variable LookupHost : string -> list string + string.
Variable ParseIP : string -> list byte.
Variable IP_String : list byte -> string.
Variable dial : string -> Z -> Conn + string.



(** X19. [get_ip] with preference for IPv6 returns the first of the
    addresses found that has no IPv4 form, an address that does not
    parse counting as such, and nil when every address is an IPv4
    address. *)
Theorem get_ip_prefer6 (url : string) (ips : list string) :
  LookupHost url = inl ips ->
  get_ip LookupHost ParseIP url true
  = inl (hd [] (List.filter (fun ip => IP.is_nil (IP.To4 ip)) (map ParseIP ips))).
Proof.
  intros Hl. unfold get_ip. rewrite Hl.
  assert (H : forall ipv4,
            (get_ip_loop ParseIP true ips ipv4 []).2
            = hd [] (List.filter (fun ip => IP.is_nil (IP.To4 ip)) (map ParseIP ips))).
  { clear Hl. induction ips as [|text ips IH]; intros ipv4; [reflexivity|].
    cbn [get_ip_loop map List.filter].
    destruct (IP.is_nil (IP.To4 (ParseIP text))); cbn [andb IP.is_nil negb hd snd];
      [reflexivity | apply IH]. }
  specialize (H []). destruct (get_ip_loop ParseIP true ips [] []) as [ipv4 ipv6].
  cbn [snd] in H. rewrite H. reflexivity.
Qed.

(** X20. The updater changes the router only when it has to. Once
    connected, whatever way the run ends (a return, an exit, a panic or
    a command that does not return), what [main] has sent after the
    login is either the print query alone, and then [main] does not
    return, or the print query followed by one set sentence; and the
    set sentence is sent only when the first sentence of the print reply
    does not say running=true and the address looked up is not [Equal]
    to the one configured: it carries the [.id] of that sentence and the
    address looked up as [connect-to], in either order. *)
Theorem main_sets_only_when_needed (fuel : nat)
    (range : gmap string string -> list (string * string))
    (host : string) (port : Z) (user pass vpn_host : string)
    (client' : Client) (c1 : Conn) :
  range_visits range ->
  Connect fuel dial range (mkClient host port user pass None)
    = Ret (None, client') ->
  conn client' = Some c1 ->
  wr_broken c1 = false ->
  exists e after,
    main LookupHost ParseIP IP_String dial fuel range
      host port user pass vpn_host = (e, Some (outbound c1 ++ after)) /\
    ((e <> Returned /\
      after = frame "/interface/ovpn-client/print" ++ [x00])
     \/
     (exists reply rest c2 ip,
        RunCommand fuel c1 print_query [] = Ret (reply :: rest, None, c2) /\
        map_index (Attributes reply) "=running" <> "true" /\
        get_ip LookupHost ParseIP vpn_host false = inl ip /\
        IP.Equal (ParseIP (map_index (Attributes reply) "=connect-to")) ip = false /\
        let id := "=.id=" +:+ map_index (Attributes reply) "=.id" in
        let connect_to := "=connect-to=" +:+ IP_String ip in
        (after
         = frame "/interface/ovpn-client/print" ++ [x00] ++
           frame "/interface/ovpn-client/set" ++
           frame id ++ frame connect_to ++ [x00]
         \/
         after
         = frame "/interface/ovpn-client/print" ++ [x00] ++
           frame "/interface/ovpn-client/set" ++
           frame connect_to ++ frame id ++ [x00]))).
Proof.
  intros Hr Hconn Hc1 Hw. unfold main. rewrite Hconn, Hc1.
  cbv zeta. cbn [Attributes print_query]. rewrite (range_nil range Hr).
  change (mkSentence "/interface/ovpn-client/print" ∅) with print_query.
  assert (Hprint : wire (sentence_words print_query []) ++ [x00]
                   = frame "/interface/ovpn-client/print" ++ [x00]).
  { unfold wire, sentence_words. cbn [map concat Command print_query].
    rewrite app_nil_r. reflexivity. }
  pose proof (write_sentence_outbound c1 print_query [] Hw) as Hws.
  rewrite Hprint in Hws.
  destruct (RunCommand fuel c1 print_query []) as [[[reply err] c2]| |] eqn:H1.
  2,3: (eexists; eexists; split;
        [rewrite Hws; reflexivity | left; split; [discriminate | reflexivity]]).
  destruct (RunCommand_write_side _ _ _ _ _ _ _ Hw H1) as [Ho1 Hw1].
  rewrite Hprint in Ho1.
  destruct err as [err|]; destruct reply as [|reply rest];
    try (eexists; eexists; split;
         [rewrite Ho1; reflexivity | left; split; [discriminate | reflexivity]]).
  destruct (String.eqb (map_index (Attributes reply) "=running") "true") eqn:Hrun;
    [eexists; eexists; split;
     [rewrite Ho1; reflexivity | left; split; [discriminate | reflexivity]]|].
  destruct (get_ip LookupHost ParseIP vpn_host false) as [ip|err] eqn:Hip;
    [|eexists; eexists; split;
      [rewrite Ho1; reflexivity | left; split; [discriminate | reflexivity]]].
  destruct (IP.Equal (ParseIP (map_index (Attributes reply) "=connect-to")) ip) eqn:Heq;
    [eexists; eexists; split;
     [rewrite Ho1; reflexivity | left; split; [discriminate | reflexivity]]|].
  set (id := map_index (Attributes reply) "=.id").
  assert (Hset : exists order,
             range (Attributes (set_query IP_String id ip)) = order /\
             (wire (sentence_words (set_query IP_String id ip) order) ++ [x00]
              = frame "/interface/ovpn-client/set" ++
                frame ("=.id=" +:+ id) ++ frame ("=connect-to=" +:+ IP_String ip) ++ [x00]
              \/
              wire (sentence_words (set_query IP_String id ip) order) ++ [x00]
              = frame "/interface/ovpn-client/set" ++
                frame ("=connect-to=" +:+ IP_String ip) ++ frame ("=.id=" +:+ id) ++ [x00])).
  { unfold set_query. cbn [Attributes].
    destruct (range_two range "=connect-to" (IP_String ip) "=.id" id Hr)
      as [-> | ->]; [discriminate | |]; eexists; (split; [reflexivity|]);
      [left | right];
      unfold sentence_words, wire; cbn [map concat Command];
      rewrite <- !app_assoc; rewrite ?app_nil_l; reflexivity. }
  destruct Hset as (order & Horder & Hwire). rewrite Horder.
  pose proof (write_sentence_outbound c2 (set_query IP_String id ip) order Hw1) as Hws2.
  assert (Hend : exists e,
             match RunCommand fuel c2 (set_query IP_String id ip) order with
             | Ret (_, Some err, c) => (Fatalln ["Error:"; err], Some (outbound c))
             | Ret (_, None, c) => (Returned, Some (outbound (conn_Close c)))
             | Panic =>
                 (Crashed,
                  Some (outbound (write_sentence c2 (set_query IP_String id ip) order)))
             | Hang =>
                 (Spinning,
                  Some (outbound (write_sentence c2 (set_query IP_String id ip) order)))
             end
             = (e, Some (outbound c1 ++
                         (frame "/interface/ovpn-client/print" ++ [x00]) ++
                         wire (sentence_words (set_query IP_String id ip) order) ++
                         [x00]))).
  { destruct (RunCommand fuel c2 (set_query IP_String id ip) order)
      as [[[reply2 err2] c3]| |] eqn:H2.
    - destruct (RunCommand_write_side _ _ _ _ _ _ _ Hw1 H2) as [Ho2 _].
      destruct err2; eexists; cbn [outbound conn_Close];
        rewrite Ho2, Ho1, <- !app_assoc; reflexivity.
    - eexists. rewrite Hws2. cbn [outbound]. rewrite Ho1, <- !app_assoc. reflexivity.
    - eexists. rewrite Hws2. cbn [outbound]. rewrite Ho1, <- !app_assoc. reflexivity. }
  destruct Hend as (e & He).
  exists e. eexists. split; [exact He|].
  right. exists reply, rest, c2, ip.
  split; [reflexivity|]. split; [apply String.eqb_neq, Hrun|].
  split; [reflexivity|]. split; [exact Heq|].
  cbv zeta. fold id.
  destruct Hwire as [-> | ->]; [left | right];
    rewrite <- !app_assoc; reflexivity.
Qed.

End UpdaterFacts.


(** With two IPv6 addresses ahead of the IPv4 address of the name, the
    address returned as the IPv4 address is the second IPv6 address. *)
Example get_ip_returns_ipv6 :
  get_ip example_lookup example_parse "vpn.example.net" false
  = inl (example_parse "2001:db8::2").
Proof. vm_compute. reflexivity. Qed.

Lemma get_ip_prefer6_witness :
  example_lookup "vpn.example.net"
    = inl ["2001:db8::1"; "2001:db8::2"; "203.0.113.9"] /\
  get_ip example_lookup example_parse "vpn.example.net" true
  = inl (hd [] (List.filter (fun ip => IP.is_nil (IP.To4 ip))
                  (map example_parse ["2001:db8::1"; "2001:db8::2"; "203.0.113.9"]))).
Proof.
  split; [reflexivity|].
  apply (get_ip_prefer6 example_lookup example_parse "vpn.example.net"). reflexivity.
Defined.

Lemma main_sets_only_when_needed_witness :
  exists client' c1,
    range_visits map_to_list /\
    Connect 2 (fun _ _ => inl (fresh_conn [example_session])) map_to_list
      (mkClient "192.168.88.1" 8728 "admin" "secret" None)
      = Ret (None, client') /\
    conn client' = Some c1 /\
    wr_broken c1 = false /\
    exists e after,
      main example_lookup example_parse example_print
        (fun _ _ => inl (fresh_conn [example_session])) 2 map_to_list
        "192.168.88.1" 8728 "admin" "secret" "vpn4.example.net"
        = (e, Some (outbound c1 ++ after)) /\
      ((e <> Returned /\
        after = frame "/interface/ovpn-client/print" ++ [x00])
       \/
       (exists reply rest c2 ip,
          RunCommand 2 c1 print_query [] = Ret (reply :: rest, None, c2) /\
          map_index (Attributes reply) "=running" <> "true" /\
          get_ip example_lookup example_parse "vpn4.example.net" false = inl ip /\
          IP.Equal (example_parse (map_index (Attributes reply) "=connect-to")) ip
            = false /\
          let id := "=.id=" +:+ map_index (Attributes reply) "=.id" in
          let connect_to := "=connect-to=" +:+ example_print ip in
          (after
           = frame "/interface/ovpn-client/print" ++ [x00] ++
             frame "/interface/ovpn-client/set" ++
             frame id ++ frame connect_to ++ [x00]
           \/
           after
           = frame "/interface/ovpn-client/print" ++ [x00] ++
             frame "/interface/ovpn-client/set" ++
             frame connect_to ++ frame id ++ [x00]))).
Proof.
  eexists. eexists.
  split; [intros m; apply Permutation_refl|].
  split; [vm_compute; reflexivity|]. split; [reflexivity|].
  split; [reflexivity|].
  eapply (main_sets_only_when_needed example_lookup example_parse example_print
            (fun _ _ => inl (fresh_conn [example_session])) 2 map_to_list
            "192.168.88.1" 8728 "admin" "secret" "vpn4.example.net");
    [intros m; apply Permutation_refl | vm_compute; reflexivity
    | reflexivity | reflexivity].
Defined.

(** A whole run: connected, the router says that the VPN is not running
    to 10.0.0.5, the name resolves to 203.0.113.9, and the set sentence
    goes out with the [.id] of the reply. *)
Example main_updates_address :
  main example_lookup example_parse example_print
    (fun _ _ => inl (fresh_conn [example_session])) 2 map_to_list
    "192.168.88.1" 8728 "admin" "secret" "vpn4.example.net"
  = (Returned,
     Some (frame "/login" ++ [x00] ++
           frame "/login" ++ frame "=name=admin" ++
           frame "=response=004dd5fcece4221500e9b7ddc5ad7bbba1" ++ [x00] ++
           frame "/interface/ovpn-client/print" ++ [x00] ++
           frame "/interface/ovpn-client/set" ++
           frame "=connect-to=203.0.113.9" ++ frame "=.id=*3" ++ [x00])).
Proof. vm_compute. reflexivity. Qed.

(** The same run against a router whose reply to the set sentence
    holds a word that is no attribute: [main] panics in [parse_sentence]
    after the set sentence has gone out. *)
Example main_crashes_after_set :
  main example_lookup example_parse example_print
    (fun _ _ => inl (fresh_conn [Wire.seed_then_done ++ Wire.print_reply ++
                                 Wire.bare_attribute])) 3
    (fun m => rev (map_to_list m))
    "192.168.88.1" 8728 "admin" "secret" "vpn4.example.net"
  = (Crashed,
     Some (frame "/login" ++ [x00] ++
           frame "/login" ++
           frame "=response=004dd5fcece4221500e9b7ddc5ad7bbba1" ++
           frame "=name=admin" ++ [x00] ++
           frame "/interface/ovpn-client/print" ++ [x00] ++
           frame "/interface/ovpn-client/set" ++
           frame "=.id=*3" ++ frame "=connect-to=203.0.113.9" ++ [x00])).
Proof. vm_compute. reflexivity. Qed.

(** ** Word stream: the length of what is returned *)



